(** * CRM mutation engine: a shallow embedding of [crm/models.py] and
    [crm/schema.py]

    The development follows the Python source function by function.

    - Text is [string]; Python truthiness of a [str] is non-emptiness.
    - A [Decimal] is carried in hundredths, the resolution that
      [DecimalField(max_digits=10, decimal_places=2)] declares.
    - [float] is IEEE 754 binary64, the primitive floats of the kernel,
      which is what Python's [float] is.
    - Identifiers ([graphene.ID], [UUIDField]) are opaque text tokens; an
      identifier that names no row does not resolve.
    - Handlers run in a small state-and-exception monad over the [World]:
      the database tables and the state of the [uuid4] generator.
    - What lies outside the repository is a parameter of the model:
      Django's [validate_email], and the database backend, which may refuse
      a row (a lost connection, a colliding key, an oversized value). *)

From Stdlib Require Import ZArith List String Ascii Bool Lia.
From Stdlib Require Import Floats HexString.
Import ListNotations.

Local Open Scope list_scope.

(** ** Python values *)

Definition ID := string.
Bind Scope string_scope with ID.

(** [Decimal] with two decimal places, in hundredths: [1525] is [15.25]. *)
Definition Decimal := Z.
Bind Scope Z_scope with Decimal.

(** [bool(s)] for a [str]. *)
Definition truthy (s : string) : bool := negb (String.eqb s EmptyString).

(** An f-string is the concatenation of its pieces. *)
Definition fstr (pieces : list string) : string :=
  String.concat EmptyString pieces.

(** [float(d)] for a [Decimal]: the binary64 number nearest to [d / 100].
    The quotient of two exactly represented integers is correctly rounded,
    so this is Python's conversion as long as [|d| < 2^53]; ten digits are
    far below that. *)
Definition float_of_Decimal (d : Decimal) : float :=
  let m := PrimFloat.div (PrimFloat.of_uint63 (Uint63.of_Z (Z.abs d)))
                         (PrimFloat.of_uint63 (Uint63.of_Z 100)) in
  if (d <? 0)%Z then PrimFloat.opp m else m.

(** ** The regular expression [^\+?\d{9,15}$]

    [re.match] anchors at the start; [$] matches at the end of the text or
    just before a final newline.  [\d] is taken over ASCII digits. *)

Definition is_digit (c : ascii) : bool :=
  let n := nat_of_ascii c in (48 <=? n)%nat && (n <=? 57)%nat.

Fixpoint skip_digits (s : string) : nat * string :=
  match s with
  | String c rest =>
      if is_digit c
      then let '(k, tail) := skip_digits rest in (S k, tail)
      else (O, s)
  | EmptyString => (O, EmptyString)
  end.

Definition at_dollar (s : string) : bool :=
  match s with
  | EmptyString => true
  | String c EmptyString => Ascii.eqb c "010"%char
  | _ => false
  end.

Definition phone_re_match (phone : string) : bool :=
  let body :=
    match phone with
    | String c rest => if Ascii.eqb c "+"%char then rest else phone
    | EmptyString => phone
    end in
  let '(k, tail) := skip_digits body in
  (9 <=? k)%nat && (k <=? 15)%nat && at_dollar tail.

(** ** Models ([crm/models.py]) *)

Module Customer.
Record t := Build
  { id : ID; name : string; email : string; phone : option string }.
End Customer.

Module Product.
Record t := Build
  { id : ID; name : string; price : Decimal; stock : Z }.
End Product.

(** [order_date] is set by the database clock and plays no part below; the
    many-to-many [products] field is the association table of the store. *)
Module Order.
Record t := Build
  { id : ID; customer : ID; total_amount : float }.
End Order.

(** ** The Entity Store *)

Record Store := mkStore
  { customers : list Customer.t;
    products : list Product.t;
    orders : list Order.t;
    order_products : list (ID * ID) }.

Record World := mkWorld { db : Store; rng : N }.

Inductive Row :=
| CustomerRow (c : Customer.t)
| ProductRow (p : Product.t)
| OrderRow (o : Order.t)
| OrderProductRow (order_id product_id : ID).

(** ** Exceptions and the handler monad *)

Inductive exn :=
| Exception (msg : string)
| ValidationError (message : string)
| DoesNotExist
| IntegrityError
| DatabaseError.

Inductive Result (A : Type) :=
| Ok (a : A)
| Raise (e : exn).
Arguments Ok {A} a.
Arguments Raise {A} e.

Definition M (A : Type) : Type := World -> Result A * World.

Definition ret {A} (a : A) : M A := fun w => (Ok a, w).

Definition raise {A} (e : exn) : M A := fun w => (Raise e, w).

Definition bind {A B} (m : M A) (k : A -> M B) : M B :=
  fun w =>
    match m w with
    | (Ok a, w') => k a w'
    | (Raise e, w') => (Raise e, w')
    end.

Declare Scope py_scope.
Delimit Scope py_scope with py.
Notation "x <- m ;; k" := (bind m (fun x => k))
  (at level 100, m at next level, right associativity) : py_scope.
Notation "m ;; k" := (bind m (fun _ => k))
  (at level 100, right associativity) : py_scope.
Local Open Scope py_scope.

(** [try: body / except ValidationError as e: handler(e.message)] *)
Definition except_ValidationError {A} (body : M A) (handler : string -> M A)
  : M A :=
  fun w =>
    match body w with
    | (Raise (ValidationError message), w') => handler message w'
    | r => r
    end.

(** [try: body / except Model.DoesNotExist: handler] *)
Definition except_DoesNotExist {A} (body : M A) (handler : M A) : M A :=
  fun w =>
    match body w with
    | (Raise DoesNotExist, w') => handler w'
    | r => r
    end.

(** [@transaction.atomic]: the tables are committed when the body returns
    and restored when it raises.  The generator is not part of the
    database and keeps its state. *)
Definition transaction_atomic {A} (body : M A) : M A :=
  fun w =>
    match body w with
    | (Ok a, w') => (Ok a, w')
    | (Raise e, w') => (Raise e, mkWorld (db w) (rng w'))
    end.

(** [uuid.uuid4()], the default of every primary key. *)
Definition uuid4 : M ID :=
  fun w => (Ok (HexString.of_N (rng w)), mkWorld (db w) (N.succ (rng w))).

(** ** Mutation inputs ([crm/schema.py]) *)

Module CustomerInput.
Record t := Build
  { name : string; email : string; phone : option string }.
End CustomerInput.

Module ProductInput.
Record t := Build
  { name : string; price : Decimal; stock : option Z }.
End ProductInput.

Module OrderInput.
Record t := Build
  { customer_id : ID; product_ids : list ID }.
End OrderInput.

(** [phone and not re.match(r"^\+?\d{9,15}$", phone)] *)
Definition bad_phone (phone : option string) : bool :=
  match phone with
  | Some p => truthy p && negb (phone_re_match p)
  | None => false
  end.

Definition mem (i : ID) (ids : list ID) : bool :=
  existsb (String.eqb i) ids.

Section Engine.

(** [django.core.validators.validate_email]: [true] when it returns,
    [false] when it raises [ValidationError]. *)
Variable validate_email : string -> bool.

(** The database backend: does it take this row into this store? *)
Variable db_accepts : Store -> Row -> bool.

(** *** Reads *)

Definition email_taken (email : string) (s : Store) : bool :=
  existsb (fun c => String.eqb (Customer.email c) email) (customers s).

(** [Customer.objects.filter(email=email).exists()] *)
Definition Customer_objects_filter_email_exists (email : string) : M bool :=
  fun w => (Ok (email_taken email (db w)), w).

Definition find_customer (pk : ID) (s : Store) : option Customer.t :=
  find (fun c => String.eqb (Customer.id c) pk) (customers s).

Definition find_product (pk : ID) (s : Store) : option Product.t :=
  find (fun p => String.eqb (Product.id p) pk) (products s).

(** [Customer.objects.get(pk=pk)] *)
Definition Customer_objects_get (pk : ID) : M Customer.t :=
  fun w =>
    match find_customer pk (db w) with
    | Some c => (Ok c, w)
    | None => (Raise DoesNotExist, w)
    end.

(** [Product.objects.get(pk=pk)] *)
Definition Product_objects_get (pk : ID) : M Product.t :=
  fun w =>
    match find_product pk (db w) with
    | Some p => (Ok p, w)
    | None => (Raise DoesNotExist, w)
    end.

(** [Product.objects.filter(pk__in=pks)]; the order of the rows is not
    observed by its one caller. *)
Definition Product_objects_filter_pk_in (pks : list ID) : M (list Product.t) :=
  fun w => (Ok (filter (fun p => mem (Product.id p) pks) (products (db w))), w).

Definition related_ids (order_id : ID) (s : Store) : list ID :=
  map snd (filter (fun r => String.eqb (fst r) order_id) (order_products s)).

(** *** Writes *)

Definition insert (row : Row) (add : Store -> Store) : M unit :=
  fun w =>
    if db_accepts (db w) row
    then (Ok tt, mkWorld (add (db w)) (rng w))
    else (Raise DatabaseError, w).

Definition add_customer (c : Customer.t) (s : Store) : Store :=
  mkStore (customers s ++ [c]) (products s) (orders s) (order_products s).

Definition add_product (p : Product.t) (s : Store) : Store :=
  mkStore (customers s) (products s ++ [p]) (orders s) (order_products s).

Definition add_order (o : Order.t) (s : Store) : Store :=
  mkStore (customers s) (products s) (orders s ++ [o]) (order_products s).

Definition add_order_product (r : ID * ID) (s : Store) : Store :=
  mkStore (customers s) (products s) (orders s) (order_products s ++ [r]).

Definition drop_order_products (order_id : ID) (stale : list ID) (s : Store)
  : Store :=
  mkStore (customers s) (products s) (orders s)
    (filter (fun r => negb (String.eqb (fst r) order_id && mem (snd r) stale))
       (order_products s)).

(** [customer.save()] of a new instance; [email] is [unique=True]. *)
Definition Customer_save (c : Customer.t) : M unit :=
  fun w =>
    if email_taken (Customer.email c) (db w)
    then (Raise IntegrityError, w)
    else insert (CustomerRow c) (add_customer c) w.

(** [Customer(name=..., email=..., phone=...)] *)
Definition Customer_new (name email : string) (phone : option string)
  : M Customer.t :=
  id <- uuid4 ;; ret (Customer.Build id name email phone).

(** [Customer.objects.create] applied to the fields of [customer_data] *)
Definition Customer_objects_create (customer_data : CustomerInput.t)
  : M Customer.t :=
  customer <- Customer_new (CustomerInput.name customer_data)
                (CustomerInput.email customer_data)
                (CustomerInput.phone customer_data) ;;
  Customer_save customer ;;
  ret customer.

(** [Product.objects.create(name=..., price=..., stock=...)] *)
Definition Product_objects_create (name : string) (price : Decimal)
  (stock : Z) : M Product.t :=
  id <- uuid4 ;;
  let product := Product.Build id name price stock in
  insert (ProductRow product) (add_product product) ;;
  ret product.

(** [order.save()] *)
Definition Order_save (o : Order.t) : M unit :=
  insert (OrderRow o) (add_order o).

Fixpoint add_order_products (order_id : ID) (pks : list ID) : M unit :=
  match pks with
  | [] => ret tt
  | pk :: rest =>
      insert (OrderProductRow order_id pk) (add_order_product (order_id, pk)) ;;
      add_order_products order_id rest
  end.

(** [order.products.set(objs)]: rows of products no longer named are
    removed, rows of products not yet related are added, each target
    once, all inside the manager's own atomic block. *)
Definition Order_products_set (order : Order.t) (objs : list Product.t)
  : M unit :=
  transaction_atomic
    (fun w =>
       let order_id := Order.id order in
       let old_ids := related_ids order_id (db w) in
       let obj_ids := map Product.id objs in
       let stale := filter (fun i => negb (mem i obj_ids)) old_ids in
       let new_ids :=
         nodup string_dec (filter (fun i => negb (mem i old_ids)) obj_ids) in
       add_order_products order_id new_ids
         (mkWorld (drop_order_products order_id stale (db w)) (rng w))).

(** *** [Order.calculate_total_amount] *)

Fixpoint total_loop (product_ids : list ID) (total : float) : M float :=
  match product_ids with
  | [] => ret total
  | product_id :: rest =>
      product <-
        except_DoesNotExist (Product_objects_get product_id)
          (raise (ValidationError
             (fstr ["Product with ID "; product_id; " does not exist."]
                %string))) ;;
      total_loop rest
        (PrimFloat.add total (float_of_Decimal (Product.price product)))
  end.

Definition calculate_total_amount (self : Order.t) (product_ids : list ID)
  : M Order.t :=
  total <- total_loop product_ids PrimFloat.zero ;;
  ret (Order.Build (Order.id self) (Order.customer self) total).

(** *** [CreateCustomer.mutate] *)

Definition CreateCustomer (input : CustomerInput.t)
  : M (Customer.t * string) :=
  let name := CustomerInput.name input in
  let email := CustomerInput.email input in
  let phone := CustomerInput.phone input in
  if negb (validate_email email)
  then raise (Exception "Invalid email address format.")
  else
    taken <- Customer_objects_filter_email_exists email ;;
    if (taken : bool)
    then raise (Exception "Email already exists.")
    else
      if bad_phone phone
      then raise (Exception
             "Invalid phone number format. Must be +999999999 up to 15 digits.")
      else
        customer <- Customer_new name email phone ;;
        Customer_save customer ;;
        ret (customer, "Customer created successfully!"%string).

(** *** [BulkCreateCustomers.mutate] *)

(** The body of the [try] for one [customer_data]. *)
Definition bulk_try (customer_data : CustomerInput.t) : M Customer.t :=
  let name := CustomerInput.name customer_data in
  let email := CustomerInput.email customer_data in
  let phone := CustomerInput.phone customer_data in
  if negb (truthy name)
  then raise (ValidationError "Name is required.")
  else
    if negb (truthy email)
    then raise (ValidationError "Email is required.")
    else
      if negb (validate_email email)
      then raise (ValidationError
             (fstr ["Invalid email address format for "; email; "."]%string))
      else
        taken <- Customer_objects_filter_email_exists email ;;
        if (taken : bool)
        then raise (ValidationError
               (fstr ["Email '"; email; "' already exists."]%string))
        else
          if bad_phone phone
          then raise (ValidationError
                 (fstr ["Invalid phone number format for '";
                        match phone with Some p => p | None => EmptyString end;
                        "'."]%string))
          else Customer_objects_create customer_data.

(** The string appended in the [except] clause.  [email] is a required
    field of [CustomerInput], so [customer_data.get('email', ...)] is it. *)
Definition bulk_error (customer_data : CustomerInput.t) (message : string)
  : string :=
  fstr ["Validation error for "; CustomerInput.email customer_data; ": ";
        message]%string.

Fixpoint bulk_loop (input : list CustomerInput.t)
  (created_customers : list Customer.t) (validation_errors : list string)
  : M (list Customer.t * list string) :=
  match input with
  | [] => ret (created_customers, validation_errors)
  | customer_data :: rest =>
      acc <-
        except_ValidationError
          (customer <- bulk_try customer_data ;;
           ret (created_customers ++ [customer], validation_errors))
          (fun message =>
             ret (created_customers,
                  validation_errors ++ [bulk_error customer_data message])) ;;
      bulk_loop rest (fst acc) (snd acc)
  end.

Definition BulkCreateCustomers (input : list CustomerInput.t)
  : M (list Customer.t * list string) :=
  transaction_atomic (bulk_loop input [] []).

(** *** [CreateProduct.mutate] *)

Definition CreateProduct (input : ProductInput.t) : M Product.t :=
  let name := ProductInput.name input in
  let price := ProductInput.price input in
  let stock := ProductInput.stock input in
  if (price <=? 0)%Z
  then raise (Exception "Price must be a positive number.")
  else
    if match stock with Some s => (s <? 0)%Z | None => false end
    then raise (Exception "Stock cannot be a negative number.")
    else
      Product_objects_create name price
        (match stock with Some s => s | None => 0%Z end).

(** *** [CreateOrder.mutate] *)

Definition CreateOrder (input : OrderInput.t) : M Order.t :=
  let customer_id := OrderInput.customer_id input in
  let product_ids := OrderInput.product_ids input in
  customer <-
    except_DoesNotExist (Customer_objects_get customer_id)
      (raise (Exception "Customer with the given ID does not exist.")) ;;
  match product_ids with
  | [] => raise (Exception "An order must contain at least one product.")
  | _ :: _ =>
      id <- uuid4 ;;
      let order := Order.Build id (Customer.id customer) PrimFloat.zero in
      order <- calculate_total_amount order product_ids ;;
      Order_save order ;;
      products <- Product_objects_filter_pk_in product_ids ;;
      Order_products_set order products ;;
      ret order
  end.

End Engine.

(** ** The collaborators at concrete inputs *)

(** Django's [EmailValidator] for plain addresses: a dot-atom local part,
    one [@], and either the allow-listed [localhost] or a host name whose
    labels are dot-separated and whose last label has two characters or
    more.  Quoted local parts, address literals and internationalised
    domains are outside this rendering and are refused by it. *)

Fixpoint split_on (sep : ascii) (s : string) : list string :=
  match s with
  | EmptyString => [EmptyString]
  | String c rest =>
      if Ascii.eqb c sep
      then EmptyString :: split_on sep rest
      else match split_on sep rest with
           | head :: tail => String c head :: tail
           | [] => [String c EmptyString]
           end
  end.

Definition is_alnum (c : ascii) : bool :=
  let n := nat_of_ascii c in
  is_digit c || ((65 <=? n)%nat && (n <=? 90)%nat)
             || ((97 <=? n)%nat && (n <=? 122)%nat).

Definition is_atext (c : ascii) : bool :=
  is_alnum c || mem (String c EmptyString)
    ["-"; "!"; "#"; "$"; "%"; "&"; "'"; "*"; "+"; "/"; "="; "?"; "^"; "_";
     "`"; "{"; "}"; "|"; "~"]%string.

Fixpoint all_chars (p : ascii -> bool) (s : string) : bool :=
  match s with
  | EmptyString => true
  | String c rest => p c && all_chars p rest
  end.

Fixpoint last_char (s : string) : option ascii :=
  match s with
  | EmptyString => None
  | String c EmptyString => Some c
  | String _ rest => last_char rest
  end.

Definition is_hyphen (c : ascii) : bool := Ascii.eqb c "-"%char.

Definition is_label (s : string) : bool :=
  match s, last_char s with
  | String first _, Some final =>
      is_alnum first && is_alnum final
      && all_chars (fun c => is_alnum c || is_hyphen c) s
      && (String.length s <=? 63)%nat
  | _, _ => false
  end.

Definition is_tld (s : string) : bool :=
  match last_char s with
  | Some final =>
      negb (is_hyphen final)
      && all_chars (fun c => is_alnum c || is_hyphen c) s
      && (2 <=? String.length s)%nat && (String.length s <=? 63)%nat
  | None => false
  end.

Definition is_user_part (s : string) : bool :=
  forallb (fun atom => truthy atom && all_chars is_atext atom)
    (split_on "."%char s).

Definition is_domain_part (s : string) : bool :=
  String.eqb s "localhost"
  || match rev (split_on "."%char s) with
     | tld :: (_ :: _) as labels => is_tld tld && forallb is_label labels
     | _ => false
     end.

Definition django_validate_email (value : string) : bool :=
  truthy value && (String.length value <=? 320)%nat
  && match split_on "@"%char value with
     | [user_part; domain_part] =>
         is_user_part user_part && is_domain_part domain_part
     | _ => false
     end.

(** A backend that takes every row. *)
Definition accept_all (s : Store) (r : Row) : bool := true.

(** A backend that enforces [CharField(max_length=200)] on customer names,
    as a [varchar(200)] column does. *)
Definition varchar_backend (s : Store) (r : Row) : bool :=
  match r with
  | CustomerRow c => (String.length (Customer.name c) <=? 200)%nat
  | _ => true
  end.

Definition empty_store : Store := mkStore [] [] [] [].

(** ** Comparing a [float] with a [Decimal]

    Python compares the two by exact value: the float [m * 2^e] equals
    the decimal [d / 100] when [100 * m * 2^e = d]. *)
Definition float_eq_Decimal (f : float) (d : Decimal) : bool :=
  match Prim2SF f with
  | S754_zero _ => (d =? 0)%Z
  | S754_finite sign m e =>
      let sm := if sign then Z.opp (Z.pos m) else Z.pos m in
      if (0 <=? e)%Z
      then (100 * sm * 2 ^ e =? d)%Z
      else (100 * sm =? d * 2 ^ (- e))%Z
  | _ => false
  end.

(** [needle in haystack] for two [str]. *)
Fixpoint is_infix (needle haystack : string) : bool :=
  String.prefix needle haystack
  || match haystack with
     | EmptyString => false
     | String _ rest => is_infix needle rest
     end.

(** ** The validation chain of CreateCustomer, in the words of the
    specification

    [validate_required(name, email)], then [validate_email_format], then
    [validate_uniqueness], then [validate_phone_format] if a phone is
    present; the first failure is the result. *)

Inductive ValidationFailure :=
| MissingFieldError
| FormatError
| ConflictError.

Definition validate_required (fields : list string)
  : option ValidationFailure :=
  if forallb truthy fields then None else Some MissingFieldError.

Definition validate_email_format (validate_email : string -> bool)
  (email : string) : option ValidationFailure :=
  if validate_email email then None else Some FormatError.

Definition validate_uniqueness (s : Store) (email : string)
  : option ValidationFailure :=
  if email_taken email s then Some ConflictError else None.

Definition validate_phone_format (phone : option string)
  : option ValidationFailure :=
  match phone with
  | None => None
  | Some p =>
      if String.eqb p EmptyString then None
      else if phone_re_match p then None else Some FormatError
  end.

Definition or_else (a b : option ValidationFailure)
  : option ValidationFailure :=
  match a with
  | Some k => Some k
  | None => b
  end.

Definition spec_validation_chain (validate_email : string -> bool)
  (s : Store) (x : CustomerInput.t) : option ValidationFailure :=
  or_else (validate_required [CustomerInput.name x; CustomerInput.email x])
    (or_else (validate_email_format validate_email (CustomerInput.email x))
       (or_else (validate_uniqueness s (CustomerInput.email x))
          (validate_phone_format (CustomerInput.phone x)))).

(** ** Vocabulary of the statements *)

(** The row a successful input becomes: its fields under the next key. *)
Definition new_customer (w : World) (x : CustomerInput.t) : Customer.t :=
  Customer.Build (HexString.of_N (rng w)) (CustomerInput.name x)
    (CustomerInput.email x) (CustomerInput.phone x).

Definition same_fields (c : Customer.t) (x : CustomerInput.t) : Prop :=
  Customer.name c = CustomerInput.name x
  /\ Customer.email c = CustomerInput.email x
  /\ Customer.phone c = CustomerInput.phone x.

(** The message of the [ValidationError] that the [try] body of the batch
    raises for [x] against [s], if it raises one. *)
Definition bulk_reject (validate_email : string -> bool) (s : Store)
  (x : CustomerInput.t) : option string :=
  let email := CustomerInput.email x in
  if negb (truthy (CustomerInput.name x)) then Some "Name is required."%string
  else if negb (truthy email) then Some "Email is required."%string
  else if negb (validate_email email)
  then Some (fstr ["Invalid email address format for "; email; "."]%string)
  else if email_taken email s
  then Some (fstr ["Email '"; email; "' already exists."]%string)
  else if bad_phone (CustomerInput.phone x)
  then Some (fstr ["Invalid phone number format for '";
                   match CustomerInput.phone x with
                   | Some p => p
                   | None => EmptyString
                   end; "'."]%string)
  else None.

Definition lefts {A B} (l : list (A + B)) : list A :=
  flat_map (fun o => match o with inl a => [a] | inr _ => [] end) l.

Definition rights {A B} (l : list (A + B)) : list B :=
  flat_map (fun o => match o with inl _ => [] | inr b => [b] end) l.

(** One outcome per input, in input order: a created Customer carrying the
    input's fields when the chain passes against the store as it stands
    when the input is reached, otherwise an error message that names the
    input's email. *)
Inductive bulk_outcomes (validate_email : string -> bool)
  : Store -> list CustomerInput.t -> list (Customer.t + string) -> Prop :=
| outcomes_nil s : bulk_outcomes validate_email s [] []
| outcomes_created s x rest c outcomes :
    spec_validation_chain validate_email s x = None ->
    same_fields c x ->
    bulk_outcomes validate_email (add_customer c s) rest outcomes ->
    bulk_outcomes validate_email s (x :: rest) (inl c :: outcomes)
| outcomes_error s x rest k reason outcomes :
    spec_validation_chain validate_email s x = Some k ->
    bulk_outcomes validate_email s rest outcomes ->
    bulk_outcomes validate_email s (x :: rest)
      (inr (fstr ["Validation error for "; CustomerInput.email x; ": ";
                  reason]%string) :: outcomes).

(** Every stored Customer holds an email of valid syntax (data model). *)
Definition emails_valid (validate_email : string -> bool) (s : Store) : Prop :=
  Forall (fun c => validate_email (Customer.email c) = true) (customers s).

(** The total the loop of [calculate_total_amount] builds when every
    identifier resolves: one binary64 addition per occurrence, left to
    right, starting from [total]. *)
Definition price_in (s : Store) (pk : ID) : float :=
  match find_product pk s with
  | Some p => float_of_Decimal (Product.price p)
  | None => PrimFloat.zero
  end.

Definition sum_prices (s : Store) (product_ids : list ID) (total : float)
  : float :=
  fold_left (fun t pk => PrimFloat.add t (price_in s pk)) product_ids total.

Definition resolves (s : Store) (pk : ID) : Prop :=
  find_product pk s <> None.

(** [stock or 0] *)
Definition stock_or_0 (stock : option Z) : Z :=
  match stock with
  | Some s => s
  | None => 0%Z
  end.

(** The two range failures of CreateProduct. *)
Definition RangeError (e : exn) : Prop :=
  e = Exception "Price must be a positive number."
  \/ e = Exception "Stock cannot be a negative number.".

Definition out_of_range (input : ProductInput.t) : Prop :=
  (ProductInput.price input <= 0)%Z
  \/ exists s, ProductInput.stock input = Some s /\ (s < 0)%Z.

(** The row CreateProduct writes for an input that is in range. *)
Definition new_product (w : World) (input : ProductInput.t) : Product.t :=
  Product.Build (HexString.of_N (rng w)) (ProductInput.name input)
    (ProductInput.price input) (stock_or_0 (ProductInput.stock input)).

(** [stock is not None and stock < 0] *)
Definition negative_stock (stock : option Z) : bool :=
  match stock with
  | Some s => (s <? 0)%Z
  | None => false
  end.

(** The products [Product.objects.filter(pk__in=product_ids)] selects. *)
Definition selected (s : Store) (product_ids : list ID) : list Product.t :=
  filter (fun p => mem (Product.id p) product_ids) (products s).

(** The order CreateOrder builds in world [w]. *)
Definition new_order (w : World) (c : Customer.t) (product_ids : list ID)
  : Order.t :=
  Order.Build (HexString.of_N (rng w)) (Customer.id c)
    (sum_prices (db w) product_ids PrimFloat.zero).

(** The association table after [order.products.set(objs)] has returned. *)
Definition set_rows (order_id : ID) (objs : list Product.t) (s : Store)
  : list (ID * ID) :=
  let old_ids := related_ids order_id s in
  let obj_ids := map Product.id objs in
  let stale := filter (fun i => negb (mem i obj_ids)) old_ids in
  let new_ids :=
    nodup string_dec (filter (fun i => negb (mem i old_ids)) obj_ids) in
  filter (fun r => negb (String.eqb (fst r) order_id && mem (snd r) stale))
    (order_products s)
  ++ map (pair order_id) new_ids.

(** ** A small shop, for the statements at concrete inputs *)

Definition alice : Customer.t :=
  Customer.Build "c-alice" "Alice" "alice@example.com" None.

(** Prices 10.00, 15.25, 0.10, 0.20 and 0.30. *)
Definition tea : Product.t := Product.Build "p-tea" "Tea" 1000 5.
Definition jam : Product.t := Product.Build "p-jam" "Jam" 1525 5.
Definition pin : Product.t := Product.Build "p-pin" "Pin" 10 5.
Definition clip : Product.t := Product.Build "p-clip" "Clip" 20 5.
Definition tack : Product.t := Product.Build "p-tack" "Tack" 30 5.

Definition shop : World :=
  mkWorld (mkStore [alice] [tea; jam; pin; clip; tack] [] []) 0.

Definition bob : CustomerInput.t :=
  CustomerInput.Build "Bob" "bob@example.com" (Some "+254700000001"%string).

Definition carol : CustomerInput.t :=
  CustomerInput.Build "Carol" "carol@example.com" None.

(** A second input under Bob's email. *)
Definition bobby : CustomerInput.t :=
  CustomerInput.Build "Bobby" "bob@example.com" None.

(** An input under the email of the stored Alice. *)
Definition alice_again : CustomerInput.t :=
  CustomerInput.Build "Alice B" "alice@example.com" None.

(** An input without a name. *)
Definition nameless : CustomerInput.t :=
  CustomerInput.Build "" "dana@example.com" None.

(** A valid input whose name has 201 characters. *)
Definition long_name : string :=
  string_of_list_ascii (repeat "x"%char 201).

Definition erin : CustomerInput.t :=
  CustomerInput.Build long_name "erin@example.com" None.

(** ** The validator of the model field

    [phone_regex = RegexValidator(regex=r"^\+?1?\d{9,15}$")] in
    [crm/models.py]: an optional [+], an optional [1], nine to fifteen
    digits, the end.  With [k] leading digits after the sign, either the
    [1?] is empty and [k] is between nine and fifteen, or it takes a
    leading [1] and the other [k - 1] digits are. *)
Definition phone_regex (value : string) : bool :=
  let body :=
    match value with
    | String c rest => if Ascii.eqb c "+"%char then rest else value
    | EmptyString => value
    end in
  let '(k, tail) := skip_digits body in
  let leading_1 :=
    match body with
    | String c _ => Ascii.eqb c "1"%char
    | EmptyString => false
    end in
  at_dollar tail
  && (((9 <=? k)%nat && (k <=? 15)%nat)
      || (leading_1 && (10 <=? k)%nat && (k <=? 16)%nat)).

(** [max_length] of [Customer.phone]. *)
Definition phone_max_length : nat := 17.

(** ** Invariants of the data model *)

(** No two Customers share an email; every stored email has valid syntax;
    every stored phone is absent, empty, or of the accepted format. *)
Definition customers_valid (validate_email : string -> bool) (s : Store)
  : Prop :=
  NoDup (map Customer.email (customers s))
  /\ Forall (fun c => validate_email (Customer.email c) = true
                      /\ bad_phone (Customer.phone c) = false)
       (customers s).

(** Every stored Customer has a name. *)
Definition customers_named (s : Store) : Prop :=
  Forall (fun c => truthy (Customer.name c) = true) (customers s).

(** Every stored price is positive and every stored stock is not
    negative. *)
Definition products_valid (s : Store) : Prop :=
  Forall (fun p => (0 < Product.price p)%Z /\ (0 <= Product.stock p)%Z)
    (products s).

(** Every Order points at a stored Customer, and every association row at
    a stored Order and a stored Product. *)
Definition references_resolve (s : Store) : Prop :=
  Forall (fun o => find_customer (Order.customer o) s <> None) (orders s)
  /\ Forall (fun r => (exists o, In o (orders s) /\ Order.id o = fst r)
                      /\ find_product (snd r) s <> None)
       (order_products s).

(** ** [CustomerFilter.filter_by_phone_pattern] ([crm/filters.py])

    [queryset.filter(phone__startswith=value)]: the rows whose phone is
    not null and begins with [value], compared character by character as
    a case-sensitive backend does. *)
Definition filter_by_phone_pattern (queryset : list Customer.t)
  (value : string) : list Customer.t :=
  filter (fun c => match Customer.phone c with
                   | Some p => String.prefix value p
                   | None => false
                   end) queryset.

(** The shop once Bob has been created. *)
Definition shop_with_bob : World :=
  mkWorld (add_customer (new_customer shop bob) (db shop)) 1.

(** A backend whose association table takes no row. *)
Definition no_rows_backend (s : Store) (r : Row) : bool :=
  match r with
  | OrderProductRow _ _ => false
  | _ => true
  end.

Definition penny : ProductInput.t := ProductInput.Build "Penny" 1 None.

Definition tea_and_jam : OrderInput.t :=
  OrderInput.Build "c-alice" ["p-tea"; "p-jam"]%string.
(** * Properties *)

(** ** The batch loop, one input at a time *)

Section BulkFacts.

Variable validate_email : string -> bool.
Variable db_accepts : Store -> Row -> bool.

Lemma bulk_reject_not_taken s x :
  bulk_reject validate_email s x = None ->
  email_taken (CustomerInput.email x) s = false.
Proof.
  unfold bulk_reject.
  destruct (negb (truthy (CustomerInput.name x))); [discriminate|].
  destruct (negb (truthy (CustomerInput.email x))); [discriminate|].
  destruct (negb (validate_email (CustomerInput.email x))); [discriminate|].
  destruct (email_taken (CustomerInput.email x) s); [discriminate|reflexivity].
Qed.

Lemma bulk_try_eq x w :
  bulk_try validate_email db_accepts x w =
  match bulk_reject validate_email (db w) x with
  | Some message => (Raise (ValidationError message), w)
  | None => Customer_objects_create db_accepts x w
  end.
Proof.
  unfold bulk_try, bulk_reject.
  destruct (negb (truthy (CustomerInput.name x))); [reflexivity|].
  destruct (negb (truthy (CustomerInput.email x))); [reflexivity|].
  destruct (negb (validate_email (CustomerInput.email x))); [reflexivity|].
  unfold bind at 1, Customer_objects_filter_email_exists.
  destruct (email_taken (CustomerInput.email x) (db w)); [reflexivity|].
  destruct (bad_phone (CustomerInput.phone x)); reflexivity.
Qed.

Lemma Customer_objects_create_eq x w :
  email_taken (CustomerInput.email x) (db w) = false ->
  Customer_objects_create db_accepts x w =
  if db_accepts (db w) (CustomerRow (new_customer w x))
  then (Ok (new_customer w x),
        mkWorld (add_customer (new_customer w x) (db w)) (N.succ (rng w)))
  else (Raise DatabaseError, mkWorld (db w) (N.succ (rng w))).
Proof.
  intros Hfree.
  unfold Customer_objects_create, Customer_new, Customer_save, bind, uuid4,
    ret, insert; cbn.
  fold (new_customer w x). rewrite Hfree.
  destruct (db_accepts (db w) (CustomerRow (new_customer w x))); reflexivity.
Qed.

(** One turn of the [for] loop. *)
Lemma bulk_loop_cons x rest created errors w :
  bulk_loop validate_email db_accepts (x :: rest) created errors w =
  match bulk_reject validate_email (db w) x with
  | Some message =>
      bulk_loop validate_email db_accepts rest created
        (errors ++ [bulk_error x message]) w
  | None =>
      if db_accepts (db w) (CustomerRow (new_customer w x))
      then bulk_loop validate_email db_accepts rest
             (created ++ [new_customer w x]) errors
             (mkWorld (add_customer (new_customer w x) (db w))
                (N.succ (rng w)))
      else (Raise DatabaseError, mkWorld (db w) (N.succ (rng w)))
  end.
Proof.
  cbn [bulk_loop]. unfold bind at 1, except_ValidationError, bind at 1.
  rewrite bulk_try_eq.
  destruct (bulk_reject validate_email (db w) x) as [message|] eqn:Hrej.
  - reflexivity.
  - rewrite Customer_objects_create_eq by (eapply bulk_reject_not_taken; eauto).
    destruct (db_accepts (db w) (CustomerRow (new_customer w x))); reflexivity.
Qed.

Lemma bulk_loop_nil created errors w :
  bulk_loop validate_email db_accepts [] created errors w =
  (Ok (created, errors), w).
Proof. reflexivity. Qed.

End BulkFacts.

(** ** The batch check and the chain of the specification agree *)

Section ChainFacts.

Variable validate_email : string -> bool.

Lemma bad_phone_format phone :
  bad_phone phone = false <-> validate_phone_format phone = None.
Proof.
  unfold bad_phone, validate_phone_format, truthy.
  destruct phone as [p|]; [|tauto].
  destruct (String.eqb p EmptyString); cbn; [tauto|].
  destruct (phone_re_match p); cbn; split; congruence.
Qed.

Lemma bulk_reject_chain s x :
  bulk_reject validate_email s x = None <->
  spec_validation_chain validate_email s x = None.
Proof.
  unfold bulk_reject, spec_validation_chain, validate_required,
    validate_email_format, validate_uniqueness.
  cbn [forallb].
  destruct (truthy (CustomerInput.name x)); cbn; [|split; discriminate].
  destruct (truthy (CustomerInput.email x)); cbn; [|split; discriminate].
  destruct (validate_email (CustomerInput.email x)); cbn;
    [|split; discriminate].
  destruct (email_taken (CustomerInput.email x) s); cbn;
    [split; discriminate|].
  rewrite <- bad_phone_format.
  destruct (bad_phone (CustomerInput.phone x)); split; congruence.
Qed.

Lemma bulk_reject_chain_fails s x message :
  bulk_reject validate_email s x = Some message ->
  exists k, spec_validation_chain validate_email s x = Some k.
Proof.
  intros Hrej.
  destruct (spec_validation_chain validate_email s x) as [k|] eqn:Hchain.
  - now exists k.
  - apply bulk_reject_chain in Hchain. congruence.
Qed.

End ChainFacts.

Lemma lefts_length_rights_length {A B} (l : list (A + B)) :
  List.length (lefts l) + List.length (rights l) = List.length l.
Proof.
  unfold lefts, rights.
  induction l as [|[a|b] l IH]; cbn in *; lia.
Qed.

Lemma bulk_outcomes_length validate_email s input outcomes :
  bulk_outcomes validate_email s input outcomes ->
  List.length outcomes = List.length input.
Proof.
  induction 1; cbn; congruence.
Qed.

Lemma add_customer_app s c cs :
  mkStore (customers (add_customer c s) ++ cs) (products (add_customer c s))
    (orders (add_customer c s)) (order_products (add_customer c s)) =
  mkStore (customers s ++ c :: cs) (products s) (orders s) (order_products s).
Proof.
  cbn. now rewrite <- app_assoc.
Qed.

Lemma bulk_loop_outcomes validate_email db_accepts :
  (forall s c, db_accepts s (CustomerRow c) = true) ->
  forall input created errors w,
  exists outcomes w',
    bulk_loop validate_email db_accepts input created errors w =
      (Ok (created ++ lefts outcomes, errors ++ rights outcomes), w')
    /\ bulk_outcomes validate_email (db w) input outcomes
    /\ db w' = mkStore (customers (db w) ++ lefts outcomes) (products (db w))
                 (orders (db w)) (order_products (db w)).
Proof.
  intros Haccept input.
  induction input as [|x rest IH]; intros created errors w.
  - exists [], w. cbn. rewrite !app_nil_r.
    repeat split; [constructor|now destruct (db w)].
  - rewrite bulk_loop_cons.
    destruct (bulk_reject validate_email (db w) x) as [message|] eqn:Hrej.
    + destruct (IH created (errors ++ [bulk_error x message]) w)
        as (outcomes & w' & Hrun & Hout & Hdb).
      destruct (bulk_reject_chain_fails _ _ _ _ Hrej) as [k Hk].
      exists (inr (bulk_error x message) :: outcomes), w'.
      rewrite Hrun. cbn. rewrite <- app_assoc.
      repeat split; [|exact Hdb].
      unfold bulk_error. econstructor; eassumption.
    + rewrite Haccept.
      destruct (IH (created ++ [new_customer w x]) errors
                  (mkWorld (add_customer (new_customer w x) (db w))
                     (N.succ (rng w))))
        as (outcomes & w' & Hrun & Hout & Hdb).
      exists (inl (new_customer w x) :: outcomes), w'.
      rewrite Hrun. cbn [lefts rights flat_map app db].
      rewrite <- app_assoc. cbn [app].
      repeat split.
      * constructor; [now apply bulk_reject_chain|repeat split|exact Hout].
      * rewrite Hdb. cbn [db]. apply add_customer_app.
Qed.

(** C1.  Over a backend that takes every Customer row, BulkCreateCustomers
    returns for every sequence of inputs: each input has exactly one
    outcome, decided by the validation chain against the store as it
    stands when the input is reached; the created Customers are the
    passing inputs in input order and are the rows appended to the store;
    each failing input contributes one message that names its email; so
    the two lists together are as long as the input. *)
Theorem BulkCreateCustomers_outcomes validate_email db_accepts :
  (forall s c, db_accepts s (CustomerRow c) = true) ->
  forall input w,
  exists outcomes w',
    BulkCreateCustomers validate_email db_accepts input w =
      (Ok (lefts outcomes, rights outcomes), w')
    /\ bulk_outcomes validate_email (db w) input outcomes
    /\ db w' = mkStore (customers (db w) ++ lefts outcomes) (products (db w))
                 (orders (db w)) (order_products (db w))
    /\ List.length (lefts outcomes) + List.length (rights outcomes)
       = List.length input.
Proof.
  intros Haccept input w.
  destruct (bulk_loop_outcomes validate_email db_accepts Haccept input [] [] w)
    as (outcomes & w' & Hrun & Hout & Hdb).
  exists outcomes, w'.
  unfold BulkCreateCustomers, transaction_atomic. rewrite Hrun. cbn [app].
  repeat split; try assumption.
  rewrite lefts_length_rights_length.
  eapply bulk_outcomes_length; eassumption.
Qed.

(** ** Atomicity of the batch *)

Section BulkAtomicity.

Variable validate_email : string -> bool.
Variable db_accepts : Store -> Row -> bool.

Lemma bulk_loop_app pre post created errors w :
  bulk_loop validate_email db_accepts (pre ++ post) created errors w =
  match bulk_loop validate_email db_accepts pre created errors w with
  | (Ok acc, w1) =>
      bulk_loop validate_email db_accepts post (fst acc) (snd acc) w1
  | (Raise e, w1) => (Raise e, w1)
  end.
Proof.
  revert created errors w.
  induction pre as [|x pre IH]; intros created errors w.
  - reflexivity.
  - cbn [app]. rewrite !bulk_loop_cons.
    destruct (bulk_reject validate_email (db w) x); [apply IH|].
    destruct (db_accepts (db w) (CustomerRow (new_customer w x)));
      [apply IH|reflexivity].
Qed.

(** The accumulators are only ever appended to. *)
Lemma bulk_loop_acc input created errors w :
  bulk_loop validate_email db_accepts input created errors w =
  match bulk_loop validate_email db_accepts input [] [] w with
  | (Ok acc, w1) => (Ok (created ++ fst acc, errors ++ snd acc), w1)
  | (Raise e, w1) => (Raise e, w1)
  end.
Proof.
  revert created errors w.
  induction input as [|x input IH]; intros created errors w.
  - cbn. now rewrite !app_nil_r.
  - rewrite !bulk_loop_cons.
    destruct (bulk_reject validate_email (db w) x) as [message|].
    + rewrite (IH created (errors ++ [bulk_error x message])),
        (IH [] ([] ++ [bulk_error x message])).
      destruct (bulk_loop _ _ input [] [] w) as [[[cs es]|e] w1];
        [|reflexivity].
      cbn. now rewrite <- app_assoc.
    + destruct (db_accepts (db w) (CustomerRow (new_customer w x)));
        [|reflexivity].
      rewrite (IH (created ++ [new_customer w x]) errors),
        (IH ([] ++ [new_customer w x]) []).
      destruct (bulk_loop _ _ input [] [] _) as [[[cs es]|e] w1];
        [|reflexivity].
      cbn. now rewrite <- app_assoc.
Qed.

Lemma Bulk_returns input w acc w1 :
  BulkCreateCustomers validate_email db_accepts input w = (Ok acc, w1) <->
  bulk_loop validate_email db_accepts input [] [] w = (Ok acc, w1).
Proof.
  unfold BulkCreateCustomers, transaction_atomic.
  destruct (bulk_loop _ _ input [] [] w) as [[a|e] w'];
    split; congruence.
Qed.

(** Whatever makes the batch raise, its writes are gone. *)
Lemma Bulk_raise_restores input w e w1 :
  BulkCreateCustomers validate_email db_accepts input w = (Raise e, w1) ->
  db w1 = db w.
Proof.
  unfold BulkCreateCustomers, transaction_atomic.
  destruct (bulk_loop _ _ input [] [] w) as [[a|e'] w']; [discriminate|].
  intros H. injection H as _ <-. reflexivity.
Qed.

Lemma Bulk_write_failure_rolls_back pre x post w created errors w1 :
  BulkCreateCustomers validate_email db_accepts pre w
    = (Ok (created, errors), w1) ->
  spec_validation_chain validate_email (db w1) x = None ->
  db_accepts (db w1) (CustomerRow (new_customer w1 x)) = false ->
  exists w',
    BulkCreateCustomers validate_email db_accepts (pre ++ x :: post) w
      = (Raise DatabaseError, w')
    /\ db w' = db w.
Proof.
  intros Hpre Hchain Hrefuse.
  apply Bulk_returns in Hpre.
  assert (Hloop :
            bulk_loop validate_email db_accepts (pre ++ x :: post) [] [] w =
            (Raise DatabaseError, mkWorld (db w1) (N.succ (rng w1)))).
  { rewrite bulk_loop_app, Hpre. cbn [fst snd].
    rewrite bulk_loop_cons.
    apply bulk_reject_chain in Hchain. now rewrite Hchain, Hrefuse. }
  unfold BulkCreateCustomers, transaction_atomic.
  rewrite Hloop. eexists. split; reflexivity.
Qed.

Lemma Bulk_validation_failure_skipped
  pre x post w created errors w1 message :
  BulkCreateCustomers validate_email db_accepts pre w
    = (Ok (created, errors), w1) ->
  bulk_reject validate_email (db w1) x = Some message ->
  (forall cs es w2,
      BulkCreateCustomers validate_email db_accepts (pre ++ post) w
        = (Ok (cs, es), w2) ->
      exists es',
        es = errors ++ es'
        /\ BulkCreateCustomers validate_email db_accepts
             (pre ++ x :: post) w
           = (Ok (cs, errors ++ bulk_error x message :: es'), w2))
  /\ (forall e w2,
      BulkCreateCustomers validate_email db_accepts (pre ++ post) w
        = (Raise e, w2) ->
      BulkCreateCustomers validate_email db_accepts (pre ++ x :: post) w
        = (Raise e, w2)).
Proof.
  intros Hpre Hrej.
  apply Bulk_returns in Hpre.
  assert (Hwith :
            bulk_loop validate_email db_accepts (pre ++ x :: post) [] [] w =
            match bulk_loop validate_email db_accepts post [] [] w1 with
            | (Ok acc, w2) =>
                (Ok (created ++ fst acc,
                     (errors ++ [bulk_error x message]) ++ snd acc), w2)
            | (Raise e, w2) => (Raise e, w2)
            end).
  { rewrite bulk_loop_app, Hpre. cbn [fst snd].
    rewrite bulk_loop_cons, Hrej. apply bulk_loop_acc. }
  assert (Hwithout :
            bulk_loop validate_email db_accepts (pre ++ post) [] [] w =
            match bulk_loop validate_email db_accepts post [] [] w1 with
            | (Ok acc, w2) =>
                (Ok (created ++ fst acc, errors ++ snd acc), w2)
            | (Raise e, w2) => (Raise e, w2)
            end).
  { rewrite bulk_loop_app, Hpre. apply bulk_loop_acc. }
  unfold BulkCreateCustomers, transaction_atomic.
  rewrite Hwith, Hwithout.
  destruct (bulk_loop validate_email db_accepts post [] [] w1)
    as [[[cs' es']|e'] w'].
  - cbn [fst snd]. split; [|discriminate].
    intros cs es w2 H. injection H as <- <- <-.
    exists es'. split; [reflexivity|].
    now rewrite <- app_assoc.
  - split; [discriminate|].
    intros e w2 H. exact H.
Qed.

End BulkAtomicity.

(** C2.  Let a batch reach input [x] after the inputs [pre].  If [x] passes
    validation and the backend refuses its row, the batch raises and the
    store is the one from before the batch: the rows of [pre] are rolled
    back.  If [x] fails validation, the batch goes on exactly as it would
    without [x]: the same Customers are created and persisted, and the
    only difference is the one message for [x]. *)
Theorem BulkCreateCustomers_atomicity validate_email db_accepts
  pre x post w created errors w1 :
  BulkCreateCustomers validate_email db_accepts pre w
    = (Ok (created, errors), w1) ->
  (spec_validation_chain validate_email (db w1) x = None ->
   db_accepts (db w1) (CustomerRow (new_customer w1 x)) = false ->
   exists w',
     BulkCreateCustomers validate_email db_accepts (pre ++ x :: post) w
       = (Raise DatabaseError, w')
     /\ db w' = db w)
  /\ (forall k,
      spec_validation_chain validate_email (db w1) x = Some k ->
      exists message,
        (forall cs es w2,
            BulkCreateCustomers validate_email db_accepts (pre ++ post) w
              = (Ok (cs, es), w2) ->
            exists es', es = errors ++ es'
              /\ BulkCreateCustomers validate_email db_accepts
                   (pre ++ x :: post) w
                 = (Ok (cs, errors ++ bulk_error x message :: es'), w2))
        /\ (forall e w2,
            BulkCreateCustomers validate_email db_accepts (pre ++ post) w
              = (Raise e, w2) ->
            BulkCreateCustomers validate_email db_accepts
              (pre ++ x :: post) w
            = (Raise e, w2))).
Proof.
  intros Hpre. split.
  - intros Hchain Hrefuse.
    eapply Bulk_write_failure_rolls_back; eassumption.
  - intros k Hk.
    destruct (bulk_reject validate_email (db w1) x) as [message|] eqn:Hrej.
    + exists message.
      eapply Bulk_validation_failure_skipped; eassumption.
    + apply bulk_reject_chain in Hrej. congruence.
Qed.

(** ** What the duplicate check of the batch sees *)

Section BulkDuplicates.

Variable validate_email : string -> bool.
Variable db_accepts : Store -> Row -> bool.

Lemma bulk_loop_grows input :
  forall created errors w created' errors' w',
  bulk_loop validate_email db_accepts input created errors w
    = (Ok (created', errors'), w') ->
  exists cs,
    created' = created ++ cs
    /\ db w' = mkStore (customers (db w) ++ cs) (products (db w))
                 (orders (db w)) (order_products (db w)).
Proof.
  induction input as [|x input IH]; intros created errors w created' errors' w'.
  - cbn. intros H. injection H as <- <- <-. exists [].
    rewrite !app_nil_r. split; [reflexivity|now destruct (db w)].
  - rewrite bulk_loop_cons.
    destruct (bulk_reject validate_email (db w) x) as [message|];
      [apply IH|].
    destruct (db_accepts (db w) (CustomerRow (new_customer w x)));
      [|discriminate].
    intros H. apply IH in H. destruct H as (cs & -> & ->).
    exists (new_customer w x :: cs). rewrite <- app_assoc.
    split; [reflexivity|]. cbn [db]. apply add_customer_app.
Qed.

Lemma email_taken_app email s cs :
  email_taken email
    (mkStore (customers s ++ cs) (products s) (orders s) (order_products s))
  = email_taken email s
    || existsb (fun c => String.eqb (Customer.email c) email) cs.
Proof.
  unfold email_taken. cbn. apply existsb_app.
Qed.

(** The check reads the store as the batch has left it so far: the rows
    from before the batch and the rows the batch has created. *)
Lemma bulk_check_sees_batch input w created errors w' email :
  BulkCreateCustomers validate_email db_accepts input w
    = (Ok (created, errors), w') ->
  email_taken email (db w') =
  email_taken email (db w)
  || existsb (fun c => String.eqb (Customer.email c) email) created.
Proof.
  intros H. apply Bulk_returns in H. apply bulk_loop_grows in H.
  destruct H as (cs & -> & ->). cbn [app]. apply email_taken_app.
Qed.

Lemma bulk_reject_conflict s x :
  truthy (CustomerInput.name x) = true ->
  truthy (CustomerInput.email x) = true ->
  validate_email (CustomerInput.email x) = true ->
  email_taken (CustomerInput.email x) s = true ->
  bulk_reject validate_email s x =
  Some (fstr ["Email '"; CustomerInput.email x; "' already exists."]%string).
Proof.
  intros Hname Hemail Hvalid Htaken. unfold bulk_reject.
  now rewrite Hname, Hemail, Hvalid, Htaken.
Qed.

Lemma bulk_reject_passes s x :
  bulk_reject validate_email s x = None ->
  truthy (CustomerInput.name x) = true
  /\ truthy (CustomerInput.email x) = true
  /\ validate_email (CustomerInput.email x) = true.
Proof.
  unfold bulk_reject.
  destruct (truthy (CustomerInput.name x)); [|discriminate].
  destruct (truthy (CustomerInput.email x)); [|discriminate].
  destruct (validate_email (CustomerInput.email x)); [|discriminate].
  auto.
Qed.

End BulkDuplicates.

(** C7, as the code has it.  The duplicate check reads the store as it
    stands when the input is reached, rows created earlier in the same
    batch included.  So when [x1] is created by the batch and a later [x2]
    with a name carries the same email, [x1] is among the created
    Customers and [x2] is refused with the message that its email already
    exists. *)
Theorem BulkCreateCustomers_duplicate_in_batch validate_email db_accepts
  pre x1 mid x2 w created errors w1 created2 errors2 w2 :
  BulkCreateCustomers validate_email db_accepts pre w
    = (Ok (created, errors), w1) ->
  spec_validation_chain validate_email (db w1) x1 = None ->
  db_accepts (db w1) (CustomerRow (new_customer w1 x1)) = true ->
  BulkCreateCustomers validate_email db_accepts (pre ++ x1 :: mid) w
    = (Ok (created2, errors2), w2) ->
  CustomerInput.email x2 = CustomerInput.email x1 ->
  truthy (CustomerInput.name x2) = true ->
  In (new_customer w1 x1) created2
  /\ BulkCreateCustomers validate_email db_accepts
       (pre ++ x1 :: mid ++ [x2]) w
     = (Ok (created2,
            errors2 ++
            [bulk_error x2
               (fstr ["Email '"; CustomerInput.email x2;
                      "' already exists."]%string)]), w2).
Proof.
  intros Hpre Hchain Haccept Hmid Hsame Hname.
  apply bulk_reject_chain in Hchain.
  destruct (bulk_reject_passes _ _ _ Hchain) as (_ & Hemail & Hvalid).
  apply Bulk_returns in Hpre.
  pose proof Hmid as Hloop. apply Bulk_returns in Hloop.
  rewrite bulk_loop_app, Hpre in Hloop. cbn [fst snd] in Hloop.
  rewrite bulk_loop_cons, Hchain, Haccept in Hloop.
  apply bulk_loop_grows in Hloop. destruct Hloop as (cs & Hcreated & Hdb).
  assert (Htaken : email_taken (CustomerInput.email x2) (db w2) = true).
  { rewrite Hdb, email_taken_app. cbn [db]. unfold email_taken at 1.
    cbn [customers add_customer]. rewrite existsb_app. cbn.
    rewrite Hsame, String.eqb_refl.
    now rewrite !orb_true_r. }
  split.
  - rewrite Hcreated. apply in_or_app. left. apply in_or_app.
    right. now left.
  - apply Bulk_returns.
    change (pre ++ x1 :: mid ++ [x2]) with (pre ++ (x1 :: mid) ++ [x2]).
    rewrite app_assoc, bulk_loop_app.
    apply Bulk_returns in Hmid. rewrite Hmid. cbn [fst snd].
    rewrite bulk_loop_cons.
    rewrite (bulk_reject_conflict validate_email (db w2) x2); try assumption;
      try (rewrite Hsame; assumption).
    reflexivity.
Qed.

(** ** CreateCustomer *)

Section CreateCustomerFacts.

Variable validate_email : string -> bool.
Variable db_accepts : Store -> Row -> bool.

(** The handler, branch by branch. *)
Lemma CreateCustomer_eq input w :
  CreateCustomer validate_email db_accepts input w =
  if negb (validate_email (CustomerInput.email input))
  then (Raise (Exception "Invalid email address format."), w)
  else if email_taken (CustomerInput.email input) (db w)
  then (Raise (Exception "Email already exists."), w)
  else if bad_phone (CustomerInput.phone input)
  then (Raise (Exception
          "Invalid phone number format. Must be +999999999 up to 15 digits."),
        w)
  else if db_accepts (db w) (CustomerRow (new_customer w input))
  then (Ok (new_customer w input, "Customer created successfully!"%string),
        mkWorld (add_customer (new_customer w input) (db w)) (N.succ (rng w)))
  else (Raise DatabaseError, mkWorld (db w) (N.succ (rng w))).
Proof.
  unfold CreateCustomer.
  destruct (negb (validate_email (CustomerInput.email input))); [reflexivity|].
  unfold bind at 1, Customer_objects_filter_email_exists.
  destruct (email_taken (CustomerInput.email input) (db w)) eqn:Htaken;
    [reflexivity|].
  destruct (bad_phone (CustomerInput.phone input)); [reflexivity|].
  unfold Customer_new, Customer_save, bind, uuid4, ret, insert; cbn.
  fold (new_customer w input). rewrite Htaken.
  destruct (db_accepts (db w) (CustomerRow (new_customer w input)));
    reflexivity.
Qed.

Lemma email_taken_In email s :
  email_taken email s = true <->
  exists c, In c (customers s) /\ Customer.email c = email.
Proof.
  unfold email_taken. rewrite existsb_exists.
  split; intros (c & Hin & Heq); exists c; split; trivial;
    now apply String.eqb_eq.
Qed.

(** The mutations keep the emails of the store valid. *)
Lemma CreateCustomer_keeps_emails_valid input w r w' :
  CreateCustomer validate_email db_accepts input w = (r, w') ->
  emails_valid validate_email (db w) ->
  emails_valid validate_email (db w').
Proof.
  rewrite CreateCustomer_eq. unfold emails_valid.
  destruct (validate_email (CustomerInput.email input)) eqn:Hvalid; cbn [negb].
  2:{ intros H; injection H as _ <-; trivial. }
  destruct (email_taken _ _). { intros H; injection H as _ <-; trivial. }
  destruct (bad_phone _). { intros H; injection H as _ <-; trivial. }
  destruct (db_accepts _ _); intros H; injection H as _ <-; trivial.
  cbn. intros Hall. apply Forall_app. split; [exact Hall|].
  constructor; [exact Hvalid|constructor].
Qed.

Lemma bulk_loop_keeps_emails_valid input :
  forall created errors w r w',
  bulk_loop validate_email db_accepts input created errors w = (r, w') ->
  emails_valid validate_email (db w) ->
  emails_valid validate_email (db w').
Proof.
  induction input as [|x input IH]; intros created errors w r w'.
  - cbn. intros H; injection H as _ <-; trivial.
  - rewrite bulk_loop_cons.
    destruct (bulk_reject validate_email (db w) x) as [message|] eqn:Hrej;
      [apply IH|].
    destruct (db_accepts (db w) (CustomerRow (new_customer w x))).
    + intros Hrun Hvalid. apply IH in Hrun; [exact Hrun|].
      unfold emails_valid. cbn. apply Forall_app. split; [exact Hvalid|].
      constructor; [|constructor].
      now destruct (bulk_reject_passes _ _ _ Hrej) as (_ & _ & ?).
    + intros H; injection H as _ <-; trivial.
Qed.

Lemma BulkCreateCustomers_keeps_emails_valid input w r w' :
  BulkCreateCustomers validate_email db_accepts input w = (r, w') ->
  emails_valid validate_email (db w) ->
  emails_valid validate_email (db w').
Proof.
  unfold BulkCreateCustomers, transaction_atomic.
  destruct (bulk_loop validate_email db_accepts input [] [] w)
    as [[acc|e] w1] eqn:Hloop; intros H; injection H as _ <-; trivial.
  eapply bulk_loop_keeps_emails_valid; eassumption.
Qed.

End CreateCustomerFacts.

(** C5.  In a store whose Customers hold valid emails, CreateCustomer with
    the email of a stored Customer raises the conflict error, the exception
    [Email already exists.], and hands the world back as it was: nothing is
    persisted. *)
Theorem CreateCustomer_duplicate_email validate_email db_accepts input w :
  emails_valid validate_email (db w) ->
  (exists c, In c (customers (db w))
             /\ Customer.email c = CustomerInput.email input) ->
  CreateCustomer validate_email db_accepts input w =
  (Raise (Exception "Email already exists."), w).
Proof.
  intros Hvalid Hdup.
  rewrite CreateCustomer_eq.
  assert (Hformat : validate_email (CustomerInput.email input) = true).
  { destruct Hdup as (c & Hin & <-).
    unfold emails_valid in Hvalid. rewrite Forall_forall in Hvalid.
    now apply Hvalid. }
  apply email_taken_In in Hdup.
  now rewrite Hformat, Hdup.
Qed.

(** ** CreateProduct *)

Section CreateProductFacts.

Variable db_accepts : Store -> Row -> bool.

Lemma CreateProduct_eq input w :
  CreateProduct db_accepts input w =
  if (ProductInput.price input <=? 0)%Z
  then (Raise (Exception "Price must be a positive number."), w)
  else if negative_stock (ProductInput.stock input)
  then (Raise (Exception "Stock cannot be a negative number."), w)
  else if db_accepts (db w) (ProductRow (new_product w input))
  then (Ok (new_product w input),
        mkWorld (add_product (new_product w input) (db w)) (N.succ (rng w)))
  else (Raise DatabaseError, mkWorld (db w) (N.succ (rng w))).
Proof.
  unfold CreateProduct, negative_stock.
  destruct (ProductInput.price input <=? 0)%Z; [reflexivity|].
  destruct (ProductInput.stock input) as [s|] eqn:Hstock.
  - destruct (s <? 0)%Z; [reflexivity|].
    unfold Product_objects_create, bind, uuid4, insert, ret, new_product.
    cbn. rewrite Hstock. cbn.
    destruct (db_accepts _ _); reflexivity.
  - unfold Product_objects_create, bind, uuid4, insert, ret, new_product.
    cbn. rewrite Hstock. cbn.
    destruct (db_accepts _ _); reflexivity.
Qed.

Lemma out_of_range_dec input :
  out_of_range input <->
  (ProductInput.price input <=? 0)%Z
  || negative_stock (ProductInput.stock input) = true.
Proof.
  unfold out_of_range, negative_stock.
  rewrite orb_true_iff, Z.leb_le.
  split; intros [H|H]; auto; right.
  - destruct H as (s & -> & Hs). now apply Z.ltb_lt.
  - destruct (ProductInput.stock input) as [s|]; [|discriminate].
    exists s. split; [reflexivity|now apply Z.ltb_lt].
Qed.

End CreateProductFacts.


(** ** Order pricing *)

Section OrderFacts.

Variable db_accepts : Store -> Row -> bool.

Lemma mem_In i ids : mem i ids = true <-> In i ids.
Proof.
  unfold mem. rewrite existsb_exists. split.
  - intros (j & Hin & Heq). apply String.eqb_eq in Heq. now subst.
  - intros Hin. exists i. split; [exact Hin|apply String.eqb_refl].
Qed.

Lemma find_product_id pk s p :
  find_product pk s = Some p -> In p (products s) /\ Product.id p = pk.
Proof.
  unfold find_product. intros H. apply find_some in H.
  destruct H as [Hin Heq]. now apply String.eqb_eq in Heq.
Qed.

(** The lookup of one identifier inside the loop. *)
Lemma lookup_eq product_id w :
  except_DoesNotExist (Product_objects_get product_id)
    (raise (ValidationError
       (fstr ["Product with ID "; product_id; " does not exist."]%string))) w =
  match find_product product_id (db w) with
  | Some p => (Ok p, w)
  | None =>
      (Raise (ValidationError
         (fstr ["Product with ID "; product_id; " does not exist."]%string)), w)
  end.
Proof.
  unfold except_DoesNotExist, Product_objects_get, raise.
  destruct (find_product product_id (db w)); reflexivity.
Qed.

Lemma total_loop_cons product_id rest total w :
  total_loop (product_id :: rest) total w =
  match find_product product_id (db w) with
  | Some p =>
      total_loop rest
        (PrimFloat.add total (float_of_Decimal (Product.price p))) w
  | None =>
      (Raise (ValidationError
         (fstr ["Product with ID "; product_id; " does not exist."]%string)), w)
  end.
Proof.
  cbn [total_loop]. unfold bind at 1. rewrite lookup_eq.
  destruct (find_product product_id (db w)); reflexivity.
Qed.

(** The loop never writes. *)
Lemma total_loop_reads product_ids :
  forall total w r w', total_loop product_ids total w = (r, w') -> w' = w.
Proof.
  induction product_ids as [|i rest IH]; intros total w r w'.
  - cbn. intros H. now injection H.
  - rewrite total_loop_cons.
    destruct (find_product i (db w)); [apply IH|].
    intros H. now injection H.
Qed.

Lemma total_loop_all product_ids :
  forall total w,
  Forall (resolves (db w)) product_ids ->
  total_loop product_ids total w =
  (Ok (sum_prices (db w) product_ids total), w).
Proof.
  induction product_ids as [|i rest IH]; intros total w Hall.
  - reflexivity.
  - rewrite total_loop_cons. inversion Hall as [|? ? Hi Hrest]; subst.
    unfold sum_prices. cbn [fold_left]. unfold price_in at 2.
    unfold resolves in Hi.
    destruct (find_product i (db w)) as [p|]; [|congruence].
    now apply IH.
Qed.

Lemma total_loop_missing product_ids :
  forall total w,
  Exists (fun i => find_product i (db w) = None) product_ids ->
  exists missing,
    In missing product_ids
    /\ find_product missing (db w) = None
    /\ total_loop product_ids total w =
       (Raise (ValidationError
          (fstr ["Product with ID "; missing; " does not exist."]%string)), w).
Proof.
  induction product_ids as [|i rest IH]; intros total w Hex.
  - inversion Hex.
  - rewrite total_loop_cons.
    destruct (find_product i (db w)) as [p|] eqn:Hfind.
    + inversion Hex as [? ? Hi|? ? Hrest]; subst; [congruence|].
      destruct (IH (PrimFloat.add total (float_of_Decimal (Product.price p)))
                  w Hrest) as (missing & Hin & Hnone & Hrun).
      exists missing. repeat split; [now right|exact Hnone|exact Hrun].
    + exists i. repeat split; [now left|exact Hfind].
Qed.

Lemma total_loop_returns product_ids :
  forall total w t w',
  total_loop product_ids total w = (Ok t, w') ->
  Forall (resolves (db w)) product_ids.
Proof.
  induction product_ids as [|i rest IH]; intros total w t w'.
  - constructor.
  - rewrite total_loop_cons.
    destruct (find_product i (db w)) as [p|] eqn:Hfind; [|discriminate].
    intros H. constructor; [unfold resolves; congruence|].
    eapply IH; eassumption.
Qed.

(** *** The association rows *)

Lemma add_order_products_cons order_id pk rest w :
  add_order_products db_accepts order_id (pk :: rest) w =
  if db_accepts (db w) (OrderProductRow order_id pk)
  then add_order_products db_accepts order_id rest
         (mkWorld (add_order_product (order_id, pk) (db w)) (rng w))
  else (Raise DatabaseError, w).
Proof.
  cbn [add_order_products]. unfold bind at 1, insert.
  destruct (db_accepts (db w) (OrderProductRow order_id pk)); reflexivity.
Qed.

Lemma add_order_products_eq order_id pks :
  forall w,
  (exists w', add_order_products db_accepts order_id pks w
              = (Raise DatabaseError, w'))
  \/ add_order_products db_accepts order_id pks w =
     (Ok tt,
      mkWorld
        (mkStore (customers (db w)) (products (db w)) (orders (db w))
           (order_products (db w) ++ map (pair order_id) pks))
        (rng w)).
Proof.
  induction pks as [|pk rest IH]; intros w.
  - right. cbn. rewrite app_nil_r. now destruct w as [[] ?].
  - rewrite add_order_products_cons.
    destruct (db_accepts (db w) (OrderProductRow order_id pk)); [|eauto].
    destruct (IH (mkWorld (add_order_product (order_id, pk) (db w)) (rng w)))
      as [[w' Hfail]|Hok].
    + left. eauto.
    + right. rewrite Hok. cbn. now rewrite <- app_assoc.
Qed.

Lemma add_order_products_accepted order_id pks :
  (forall s r, db_accepts s r = true) ->
  forall w,
  add_order_products db_accepts order_id pks w =
  (Ok tt,
   mkWorld
     (mkStore (customers (db w)) (products (db w)) (orders (db w))
        (order_products (db w) ++ map (pair order_id) pks))
     (rng w)).
Proof.
  intros Haccept. induction pks as [|pk rest IH]; intros w.
  - cbn. rewrite app_nil_r. now destruct w as [[] ?].
  - rewrite add_order_products_cons, Haccept, IH. cbn.
    now rewrite <- app_assoc.
Qed.

End OrderFacts.

(** ** CreateOrder *)

Section CreateOrderFacts.

Variable db_accepts : Store -> Row -> bool.

Lemma Order_products_set_eq order objs w :
  (exists w', Order_products_set db_accepts order objs w
              = (Raise DatabaseError, w') /\ db w' = db w)
  \/ Order_products_set db_accepts order objs w =
     (Ok tt,
      mkWorld
        (mkStore (customers (db w)) (products (db w)) (orders (db w))
           (set_rows (Order.id order) objs (db w)))
        (rng w)).
Proof.
  unfold Order_products_set, transaction_atomic.
  match goal with
  | |- context [add_order_products _ ?o ?l ?w1] =>
      destruct (add_order_products_eq db_accepts o l w1) as [[w' Hfail]|Hok]
  end.
  - left. rewrite Hfail. eauto.
  - right. rewrite Hok. reflexivity.
Qed.

Lemma Order_products_set_accepted order objs w :
  (forall s r, db_accepts s r = true) ->
  Order_products_set db_accepts order objs w =
  (Ok tt,
   mkWorld
     (mkStore (customers (db w)) (products (db w)) (orders (db w))
        (set_rows (Order.id order) objs (db w)))
     (rng w)).
Proof.
  intros Haccept. unfold Order_products_set, transaction_atomic.
  now rewrite add_order_products_accepted.
Qed.

(** The handler, branch by branch. *)
Lemma CreateOrder_eq input w :
  CreateOrder db_accepts input w =
  let product_ids := OrderInput.product_ids input in
  let w1 := mkWorld (db w) (N.succ (rng w)) in
  match find_customer (OrderInput.customer_id input) (db w) with
  | None => (Raise (Exception "Customer with the given ID does not exist."), w)
  | Some c =>
      match product_ids with
      | [] =>
          (Raise (Exception "An order must contain at least one product."), w)
      | _ :: _ =>
          match total_loop product_ids PrimFloat.zero w1 with
          | (Raise e, _) => (Raise e, w1)
          | (Ok total, _) =>
              let order :=
                Order.Build (HexString.of_N (rng w)) (Customer.id c) total in
              if db_accepts (db w) (OrderRow order)
              then
                match Order_products_set db_accepts order
                        (selected (db w) product_ids)
                        (mkWorld (add_order order (db w)) (N.succ (rng w)))
                with
                | (Ok _, w') => (Ok order, w')
                | (Raise e, w') => (Raise e, w')
                end
              else (Raise DatabaseError, w1)
          end
      end
  end.
Proof.
  unfold CreateOrder. cbn zeta.
  unfold bind at 1, except_DoesNotExist, Customer_objects_get, raise.
  destruct (find_customer (OrderInput.customer_id input) (db w)) as [c|];
    [|reflexivity].
  destruct (OrderInput.product_ids input) as [|i rest] eqn:Hids;
    [reflexivity|].
  unfold bind at 1, uuid4. unfold bind at 1, calculate_total_amount.
  unfold bind at 1.
  destruct (total_loop (i :: rest) PrimFloat.zero
              (mkWorld (db w) (N.succ (rng w)))) as [[total|e] w2] eqn:Hloop.
  2:{ apply total_loop_reads in Hloop. now subst. }
  apply total_loop_reads in Hloop. subst w2.
  unfold ret at 1. cbn [Order.id Order.customer].
  unfold bind at 1, Order_save, insert. cbn [db rng].
  destruct (db_accepts (db w) (OrderRow _)); [|reflexivity].
  unfold bind at 1, Product_objects_filter_pk_in. cbn [db].
  unfold bind at 1.
  change (filter (fun p => mem (Product.id p) (i :: rest))
            (products (add_order _ (db w))))
    with (selected (db w) (i :: rest)).
  destruct (Order_products_set _ _ _ _) as [[[]|e] w2]; reflexivity.
Qed.

Lemma set_rows_covers order_id objs s p :
  In p objs -> In (order_id, Product.id p) (set_rows order_id objs s).
Proof.
  intros Hin. unfold set_rows. apply in_or_app.
  assert (Hobj : In (Product.id p) (map Product.id objs))
    by now apply in_map.
  destruct (mem (Product.id p) (related_ids order_id s)) eqn:Hold.
  - left. apply mem_In in Hold. unfold related_ids in Hold.
    apply in_map_iff in Hold. destruct Hold as ([o i] & Hi & Hrow).
    apply filter_In in Hrow. destruct Hrow as [Hrow Ho].
    cbn in Hi, Ho. apply String.eqb_eq in Ho. subst.
    apply filter_In. split; [exact Hrow|]. cbn [fst snd].
    rewrite String.eqb_refl. cbn [andb].
    destruct (mem (Product.id p) _) eqn:Hstale; [|reflexivity].
    apply mem_In, filter_In in Hstale. destruct Hstale as [_ Hnot].
    apply mem_In in Hobj. now rewrite Hobj in Hnot.
  - right. apply in_map. apply nodup_In. apply filter_In.
    split; [exact Hobj|now rewrite Hold].
Qed.

Lemma related_ids_app order_id a b products' orders' customers' :
  related_ids order_id (mkStore customers' products' orders' (a ++ b)) =
  related_ids order_id (mkStore customers' products' orders' a)
  ++ related_ids order_id (mkStore customers' products' orders' b).
Proof.
  unfold related_ids. cbn. now rewrite filter_app, map_app.
Qed.

Lemma related_ids_own order_id ids customers' products' orders' :
  related_ids order_id
    (mkStore customers' products' orders' (map (pair order_id) ids)) = ids.
Proof.
  unfold related_ids. cbn.
  induction ids as [|i ids IH]; [reflexivity|].
  cbn. rewrite String.eqb_refl. cbn. now rewrite IH.
Qed.

Lemma filter_all {A} (f : A -> bool) l :
  (forall a, f a = true) -> filter f l = l.
Proof.
  intros Hall. induction l as [|a l IH]; [reflexivity|].
  cbn. now rewrite Hall, IH.
Qed.

(** With no row yet under the key of the order, [set] relates each named
    product once. *)
Lemma set_rows_fresh order_id objs s :
  related_ids order_id s = [] ->
  set_rows order_id objs s =
  order_products s
  ++ map (pair order_id) (nodup string_dec (map Product.id objs)).
Proof.
  intros Hfresh. unfold set_rows. rewrite Hfresh. cbn [filter mem existsb].
  rewrite !filter_all; trivial.
  intros r. now rewrite andb_false_r.
Qed.

End CreateOrderFacts.




(** ** Repeated identifiers *)

Lemma CreateOrder_accepted db_accepts input w c :
  (forall s r, db_accepts s r = true) ->
  find_customer (OrderInput.customer_id input) (db w) = Some c ->
  OrderInput.product_ids input <> [] ->
  Forall (resolves (db w)) (OrderInput.product_ids input) ->
  CreateOrder db_accepts input w =
  (Ok (new_order w c (OrderInput.product_ids input)),
   mkWorld
     (mkStore (customers (db w)) (products (db w))
        (orders (db w) ++ [new_order w c (OrderInput.product_ids input)])
        (set_rows (HexString.of_N (rng w))
           (selected (db w) (OrderInput.product_ids input))
           (add_order (new_order w c (OrderInput.product_ids input)) (db w))))
     (N.succ (rng w))).
Proof.
  intros Haccept Hcustomer Hsome Hall.
  rewrite CreateOrder_eq, Hcustomer. cbn zeta.
  destruct (OrderInput.product_ids input) as [|i rest] eqn:Hids;
    [congruence|].
  rewrite (total_loop_all (i :: rest) PrimFloat.zero
             (mkWorld (db w) (N.succ (rng w)))) by exact Hall.
  cbn [db]. rewrite Haccept.
  rewrite Order_products_set_accepted by exact Haccept.
  reflexivity.
Qed.

Lemma selected_ids s product_ids i :
  In i product_ids -> resolves s i ->
  In i (map Product.id (selected s product_ids)).
Proof.
  intros Hin Hres. unfold resolves in Hres.
  destruct (find_product i s) as [p|] eqn:Hfind; [|congruence].
  apply find_product_id in Hfind. destruct Hfind as [Hp Hid].
  apply in_map_iff. exists p. split; [exact Hid|].
  apply filter_In. split; [exact Hp|]. apply mem_In. now rewrite Hid.
Qed.

(** C10.  Over a backend that takes every row, and with no association
    row yet under the key the new order draws: when the customer resolves
    and every identifier of a non-empty [product_ids] resolves, repeated
    or not, CreateOrder returns; [total_amount] is the left-to-right sum
    over the list, one addend per occurrence; and each named product is
    associated to the order exactly once.  In the shop, ordering the tea
    twice gives a total of exactly 20.00 for an order whose only
    associated product costs 10.00. *)
Theorem CreateOrder_repeated_product :
  (forall db_accepts input w c,
      (forall s r, db_accepts s r = true) ->
      find_customer (OrderInput.customer_id input) (db w) = Some c ->
      OrderInput.product_ids input <> [] ->
      Forall (resolves (db w)) (OrderInput.product_ids input) ->
      related_ids (HexString.of_N (rng w)) (db w) = [] ->
      exists order w',
        CreateOrder db_accepts input w = (Ok order, w')
        /\ Order.total_amount order =
           fold_left (fun t pk => PrimFloat.add t (price_in (db w) pk))
             (OrderInput.product_ids input) PrimFloat.zero
        /\ forall i,
            In i (OrderInput.product_ids input) ->
            count_occ string_dec (related_ids (Order.id order) (db w')) i = 1)
  /\ (exists order w',
        CreateOrder accept_all
          (OrderInput.Build "c-alice" ["p-tea"; "p-tea"]%string) shop
        = (Ok order, w')
        /\ related_ids (Order.id order) (db w') = ["p-tea"%string]
        /\ float_eq_Decimal (Order.total_amount order) 2000 = true
        /\ Product.price tea = 1000%Z
        /\ PrimFloat.ltb (float_of_Decimal (Product.price tea))
             (Order.total_amount order) = true).
Proof.
  split.
  - intros db_accepts input w c Haccept Hcustomer Hsome Hall Hfresh.
    pose proof (CreateOrder_accepted db_accepts input w c Haccept Hcustomer
                  Hsome Hall) as Hrun.
    eexists. eexists. split; [exact Hrun|].
    split; [reflexivity|].
    intros i Hin. cbn [Order.id new_order db].
    rewrite set_rows_fresh by exact Hfresh.
    cbn [order_products add_order].
    rewrite related_ids_app, related_ids_own.
    change (related_ids (HexString.of_N (rng w))
              (mkStore (customers (db w)) (products (db w))
                 (orders (db w) ++
                  [new_order w c (OrderInput.product_ids input)])
                 (order_products (db w))))
      with (related_ids (HexString.of_N (rng w)) (db w)).
    rewrite Hfresh. cbn [app].
    apply NoDup_count_occ'; [apply NoDup_nodup|].
    apply nodup_In. apply selected_ids; [exact Hin|].
    rewrite Forall_forall in Hall. now apply Hall.
  - eexists. eexists. split; [vm_compute; reflexivity|].
    repeat split; vm_compute; reflexivity.
Qed.

(** ** Binary floating point in the total *)

(** C3 fails on the code.  For the pin at 0.10 and the clip at 0.20 the
    order's [total_amount] is the binary64 number 0.30000000000000004: it
    is not the decimal 0.30, and not even the binary64 number nearest to
    0.30.  For the pin, the clip and the tack at 0.30, the list and its
    reverse give two different totals. *)
Theorem CreateOrder_total_amount_drifts :
  (exists order w',
      CreateOrder accept_all
        (OrderInput.Build "c-alice" ["p-pin"; "p-clip"]%string) shop
      = (Ok order, w')
      /\ float_eq_Decimal (Order.total_amount order) 30 = false
      /\ PrimFloat.eqb (Order.total_amount order) (float_of_Decimal 30)
         = false)
  /\ (exists order1 w1 order2 w2,
      CreateOrder accept_all
        (OrderInput.Build "c-alice"
           ["p-pin"; "p-clip"; "p-tack"]%string) shop
      = (Ok order1, w1)
      /\ CreateOrder accept_all
           (OrderInput.Build "c-alice"
              ["p-tack"; "p-clip"; "p-pin"]%string) shop
         = (Ok order2, w2)
      /\ PrimFloat.eqb (Order.total_amount order1) (Order.total_amount order2)
         = false).
Proof.
  split.
  - eexists. eexists. split; [vm_compute; reflexivity|].
    split; vm_compute; reflexivity.
  - eexists. eexists. eexists. eexists.
    split; [vm_compute; reflexivity|].
    split; [vm_compute; reflexivity|].
    vm_compute; reflexivity.
Qed.

(** The example of the specification does come out exact: 10.00 and 15.25
    are binary fractions, and so is their sum, in either order. *)
Lemma CreateOrder_tea_and_jam :
  exists order1 w1 order2 w2,
    CreateOrder accept_all
      (OrderInput.Build "c-alice" ["p-tea"; "p-jam"]%string) shop
    = (Ok order1, w1)
    /\ CreateOrder accept_all
         (OrderInput.Build "c-alice" ["p-jam"; "p-tea"]%string) shop
       = (Ok order2, w2)
    /\ float_eq_Decimal (Order.total_amount order1) 2525 = true
    /\ float_eq_Decimal (Order.total_amount order2) 2525 = true.
Proof.
  eexists. eexists. eexists. eexists.
  split; [vm_compute; reflexivity|].
  split; [vm_compute; reflexivity|].
  split; vm_compute; reflexivity.
Qed.

(** ** The statements at concrete inputs *)

(** C8 fails on the code.  CreateCustomer has no required-field step: the
    input without a name, which the chain of the specification refuses
    with [MissingFieldError] and which the batch handler refuses with
    [Name is required.], is persisted by CreateCustomer.  An empty email
    is refused, but by the format check. *)
Theorem CreateCustomer_persists_nameless :
  CustomerInput.name nameless = EmptyString
  /\ spec_validation_chain django_validate_email (db shop) nameless
     = Some MissingFieldError
  /\ CreateCustomer django_validate_email accept_all nameless shop
     = (Ok (new_customer shop nameless,
            "Customer created successfully!"%string),
        mkWorld (add_customer (new_customer shop nameless) (db shop)) 1)
  /\ BulkCreateCustomers django_validate_email accept_all [nameless] shop
     = (Ok ([], ["Validation error for dana@example.com: Name is required."
                 %string]), shop)
  /\ CreateCustomer django_validate_email accept_all
       (CustomerInput.Build "Dana" EmptyString None) shop
     = (Raise (Exception "Invalid email address format."), shop).
Proof.
  repeat split.
Qed.

(** C7 as stated fails: of two inputs under one email that the store does
    not hold, the first is created and the second is refused. *)
Lemma BulkCreateCustomers_second_duplicate_refused :
  email_taken "bob@example.com" (db shop) = false
  /\ BulkCreateCustomers django_validate_email accept_all [bob; bobby] shop
     = (Ok ([new_customer shop bob],
            [bulk_error bobby "Email 'bob@example.com' already exists."]),
        mkWorld (add_customer (new_customer shop bob) (db shop)) 1).
Proof.
  split; reflexivity.
Qed.

(** The example of the specification: three inputs, one under a stored
    email.  Two Customers are created and stored, one message is returned;
    and over a backend that refuses the third row, the store holds neither
    of the two. *)
Lemma BulkCreateCustomers_three_inputs :
  (exists c1 c2 message w',
      BulkCreateCustomers django_validate_email accept_all
        [bob; alice_again; carol] shop
      = (Ok ([c1; c2], [message]), w')
      /\ customers (db w') = [alice; c1; c2])
  /\ (exists w',
      BulkCreateCustomers django_validate_email varchar_backend
        [bob; alice_again; carol; erin] shop
      = (Raise DatabaseError, w')
      /\ db w' = db shop).
Proof.
  split.
  - eexists. eexists. eexists. eexists. split; reflexivity.
  - eexists. split; reflexivity.
Qed.

Lemma BulkCreateCustomers_outcomes_witness :
  (forall s c, accept_all s (CustomerRow c) = true)
  /\ exists outcomes w',
      BulkCreateCustomers django_validate_email accept_all
        [bob; alice_again; nameless; carol] shop
      = (Ok (lefts outcomes, rights outcomes), w')
      /\ bulk_outcomes django_validate_email (db shop)
           [bob; alice_again; nameless; carol] outcomes
      /\ db w' = mkStore (customers (db shop) ++ lefts outcomes)
                   (products (db shop)) (orders (db shop))
                   (order_products (db shop))
      /\ List.length (lefts outcomes) + List.length (rights outcomes)
         = List.length [bob; alice_again; nameless; carol].
Proof.
  split; [reflexivity|].
  apply (BulkCreateCustomers_outcomes django_validate_email accept_all).
  reflexivity.
Defined.

Lemma BulkCreateCustomers_atomicity_witness :
  (exists w',
      BulkCreateCustomers django_validate_email varchar_backend
        ([bob] ++ erin :: [carol]) shop
      = (Raise DatabaseError, w')
      /\ db w' = db shop)
  /\ (exists message es' w2,
      BulkCreateCustomers django_validate_email varchar_backend
        ([bob] ++ nameless :: [carol]) shop
      = (Ok ([new_customer shop bob;
              new_customer (mkWorld (db shop) 1) carol],
             [] ++ bulk_error nameless message :: es'), w2)).
Proof.
  pose (w1 := mkWorld (add_customer (new_customer shop bob) (db shop)) 1).
  assert (Hpre : BulkCreateCustomers django_validate_email varchar_backend
                   [bob] shop = (Ok ([new_customer shop bob], []), w1))
    by reflexivity.
  split.
  - destruct (BulkCreateCustomers_atomicity django_validate_email
                varchar_backend [bob] erin [carol] shop _ _ _ Hpre)
      as [Hwrite _].
    apply Hwrite; reflexivity.
  - destruct (BulkCreateCustomers_atomicity django_validate_email
                varchar_backend [bob] nameless [carol] shop _ _ _ Hpre)
      as [_ Hskip].
    destruct (Hskip MissingFieldError eq_refl) as (message & Hok & _).
    destruct (Hok [new_customer shop bob;
                   new_customer (mkWorld (db shop) 1) carol] []
                (mkWorld
                   (add_customer (new_customer (mkWorld (db shop) 1) carol)
                      (db w1)) 2) eq_refl)
      as (es' & _ & Hrun).
    exists message, es'. eexists. exact Hrun.
Defined.

Lemma BulkCreateCustomers_duplicate_in_batch_witness :
  In (new_customer shop bob)
    [new_customer shop bob; new_customer (mkWorld (db shop) 1) carol]
  /\ BulkCreateCustomers django_validate_email accept_all
       ([] ++ bob :: [carol] ++ [bobby]) shop
     = (Ok ([new_customer shop bob;
             new_customer (mkWorld (db shop) 1) carol],
            [] ++
            [bulk_error bobby
               (fstr ["Email '"; CustomerInput.email bobby;
                      "' already exists."]%string)]),
        mkWorld
          (add_customer (new_customer (mkWorld (db shop) 1) carol)
             (add_customer (new_customer shop bob) (db shop))) 2).
Proof.
  apply (BulkCreateCustomers_duplicate_in_batch django_validate_email
           accept_all [] bob [carol] bobby shop [] [] shop);
    reflexivity.
Defined.

Lemma CreateCustomer_duplicate_email_witness :
  emails_valid django_validate_email (db shop)
  /\ CreateCustomer django_validate_email accept_all alice_again shop
     = (Raise (Exception "Email already exists."), shop).
Proof.
  assert (Hvalid : emails_valid django_validate_email (db shop)).
  { constructor; [reflexivity|constructor]. }
  split; [exact Hvalid|].
  apply CreateCustomer_duplicate_email; [exact Hvalid|].
  exists alice. split; [now left|reflexivity].
Defined.




Lemma CreateOrder_repeated_product_witness :
  exists order w',
    CreateOrder accept_all
      (OrderInput.Build "c-alice" ["p-tea"; "p-jam"; "p-tea"]%string)
      shop
    = (Ok order, w')
    /\ Order.total_amount order =
       fold_left (fun t pk => PrimFloat.add t (price_in (db shop) pk))
         ["p-tea"; "p-jam"; "p-tea"]%string PrimFloat.zero
    /\ forall i,
        In i ["p-tea"; "p-jam"; "p-tea"]%string ->
        count_occ string_dec (related_ids (Order.id order) (db w')) i = 1.
Proof.
  apply (proj1 CreateOrder_repeated_product accept_all
           (OrderInput.Build "c-alice"
              ["p-tea"; "p-jam"; "p-tea"]%string) shop alice).
  - reflexivity.
  - reflexivity.
  - discriminate.
  - repeat constructor; discriminate.
  - reflexivity.
Defined.

(** * Further properties of the code *)

(** ** The phone expressions *)

Lemma is_digit_not_newline c :
  Ascii.eqb c "010"%char = true -> is_digit c = false.
Proof.
  intros H. apply Ascii.eqb_eq in H. now subst.
Qed.

Lemma is_digit_not_plus c :
  is_digit c = true -> Ascii.eqb c "+"%char = false.
Proof.
  intros H. destruct (Ascii.eqb c "+"%char) eqn:Hplus; [|reflexivity].
  apply Ascii.eqb_eq in Hplus. subst. discriminate.
Qed.

(** [skip_digits] splits a text into its longest run of leading digits
    and what follows. *)
Lemma skip_digits_split s :
  forall k tail,
  skip_digits s = (k, tail) ->
  exists digits,
    s = (digits ++ tail)%string
    /\ String.length digits = k
    /\ all_chars is_digit digits = true.
Proof.
  induction s as [|c s IH]; intros k tail; cbn [skip_digits].
  - intros H. injection H as <- <-. now exists EmptyString.
  - destruct (is_digit c) eqn:Hc.
    + destruct (skip_digits s) as [k' tail'] eqn:Hs.
      intros H. injection H as <- <-.
      destruct (IH k' tail' eq_refl) as (digits & -> & <- & Hall).
      exists (String c digits). cbn. now rewrite Hc, Hall.
    + intros H. injection H as <- <-. now exists EmptyString.
Qed.

Lemma skip_digits_run digits tail :
  all_chars is_digit digits = true ->
  at_dollar tail = true ->
  skip_digits (digits ++ tail)%string = (String.length digits, tail).
Proof.
  intros Hall Htail.
  induction digits as [|c digits IH]; cbn.
  - destruct tail as [|c tail]; [reflexivity|].
    cbn in Htail. destruct tail; [|discriminate].
    cbn. now rewrite (is_digit_not_newline c Htail).
  - cbn in Hall. apply andb_true_iff in Hall. destruct Hall as [Hc Hall].
    now rewrite Hc, (IH Hall).
Qed.

Lemma at_dollar_cases tail :
  at_dollar tail = true <->
  tail = EmptyString \/ tail = String "010"%char EmptyString.
Proof.
  destruct tail as [|c [|c' tail]]; cbn.
  - tauto.
  - rewrite Ascii.eqb_eq. split.
    + intros ->. now right.
    + intros [H|H]; [discriminate|]. now injection H.
  - split; [discriminate|]. intros [H|H]; discriminate.
Qed.


Lemma skip_digits_length s :
  forall k tail,
  skip_digits s = (k, tail) ->
  String.length s = (k + String.length tail)%nat.
Proof.
  intros k tail H.
  destruct (skip_digits_split s k tail H) as (digits & -> & <- & _).
  clear H. induction digits as [|c digits IH]; cbn; [reflexivity|].
  now rewrite IH.
Qed.

Lemma at_dollar_length tail :
  at_dollar tail = true -> (String.length tail <= 1)%nat.
Proof.
  intros H. apply at_dollar_cases in H. destruct H as [-> | ->]; cbn; lia.
Qed.


(** ** CreateCustomer, further *)

Section CustomerInvariants.

Variable validate_email : string -> bool.
Variable db_accepts : Store -> Row -> bool.

Lemma email_free_not_in email s :
  email_taken email s = false ->
  ~ In email (map Customer.email (customers s)).
Proof.
  intros Hfree Hin. apply in_map_iff in Hin.
  destruct Hin as (c & Heq & Hin).
  assert (email_taken email s = true) by (apply email_taken_In; eauto).
  congruence.
Qed.

Lemma customers_valid_add s c :
  customers_valid validate_email s ->
  email_taken (Customer.email c) s = false ->
  validate_email (Customer.email c) = true ->
  bad_phone (Customer.phone c) = false ->
  customers_valid validate_email (add_customer c s).
Proof.
  intros [Hnodup Hall] Hfree Hvalid Hphone. split; cbn.
  - rewrite map_app. cbn. apply NoDup_app.
    + exact Hnodup.
    + repeat constructor. intros [].
    + intros e Hin [<-|[]]. now apply (email_free_not_in _ s Hfree).
  - apply Forall_app. split; [exact Hall|]. now repeat constructor.
Qed.

End CustomerInvariants.

(** X3.  CreateCustomer is all or nothing: a call that returns has
    appended exactly one Customer, carrying the name, email and phone of
    the input, and has changed nothing else; a call that raises leaves the
    store as it was. *)
Theorem CreateCustomer_all_or_nothing validate_email db_accepts input w r w' :
  CreateCustomer validate_email db_accepts input w = (r, w') ->
  match r with
  | Ok (customer, message) =>
      same_fields customer input
      /\ db w' = add_customer customer (db w)
      /\ message = "Customer created successfully!"%string
  | Raise _ => db w' = db w
  end.
Proof.
  rewrite CreateCustomer_eq.
  destruct (negb (validate_email (CustomerInput.email input))).
  { intros H. injection H as <- <-. reflexivity. }
  destruct (email_taken (CustomerInput.email input) (db w)).
  { intros H. injection H as <- <-. reflexivity. }
  destruct (bad_phone (CustomerInput.phone input)).
  { intros H. injection H as <- <-. reflexivity. }
  destruct (db_accepts (db w) (CustomerRow (new_customer w input)));
    intros H; injection H as <- <-; [|reflexivity].
  repeat split.
Qed.

(** X4.  CreateCustomer keeps the customer table valid, whatever it
    returns or raises: emails stay pairwise distinct and of valid syntax,
    phones stay absent, empty or of the accepted format. *)
Theorem CreateCustomer_keeps_customers_valid
  validate_email db_accepts input w r w' :
  customers_valid validate_email (db w) ->
  CreateCustomer validate_email db_accepts input w = (r, w') ->
  customers_valid validate_email (db w').
Proof.
  intros Hvalid. rewrite CreateCustomer_eq.
  destruct (validate_email (CustomerInput.email input)) eqn:Hformat;
    cbn [negb].
  2:{ intros H. injection H as _ <-. exact Hvalid. }
  destruct (email_taken (CustomerInput.email input) (db w)) eqn:Hfree.
  { intros H. injection H as _ <-. exact Hvalid. }
  destruct (bad_phone (CustomerInput.phone input)) eqn:Hphone.
  { intros H. injection H as _ <-. exact Hvalid. }
  destruct (db_accepts (db w) (CustomerRow (new_customer w input)));
    intros H; injection H as _ <-; [|exact Hvalid].
  cbn [db]. now apply customers_valid_add.
Qed.

(** X5.  Once CreateCustomer has returned, every further CreateCustomer
    under the same email raises [Email already exists.] and writes
    nothing, whatever its name and phone. *)
Theorem CreateCustomer_then_duplicate
  validate_email db_accepts input w customer message w1 again :
  CreateCustomer validate_email db_accepts input w
    = (Ok (customer, message), w1) ->
  CustomerInput.email again = CustomerInput.email input ->
  CreateCustomer validate_email db_accepts again w1
    = (Raise (Exception "Email already exists."), w1).
Proof.
  rewrite CreateCustomer_eq.
  destruct (validate_email (CustomerInput.email input)) eqn:Hformat;
    cbn [negb]; [|discriminate].
  destruct (email_taken (CustomerInput.email input) (db w)); [discriminate|].
  destruct (bad_phone (CustomerInput.phone input)); [discriminate|].
  destruct (db_accepts (db w) (CustomerRow (new_customer w input)));
    [|discriminate].
  intros H Hsame. injection H as <- _ <-.
  rewrite CreateCustomer_eq, Hsame, Hformat. cbn [negb db].
  assert (Htaken : email_taken (CustomerInput.email input)
                     (add_customer (new_customer w input) (db w)) = true).
  { apply email_taken_In. exists (new_customer w input).
    split; [|reflexivity]. cbn. apply in_or_app. right. now left. }
  now rewrite Htaken.
Qed.

(** ** BulkCreateCustomers, further *)

Section BulkFurther.

Variable validate_email : string -> bool.
Variable db_accepts : Store -> Row -> bool.

Lemma bulk_reject_phone s x :
  bulk_reject validate_email s x = None ->
  bad_phone (CustomerInput.phone x) = false.
Proof.
  unfold bulk_reject.
  destruct (negb (truthy (CustomerInput.name x))); [discriminate|].
  destruct (negb (truthy (CustomerInput.email x))); [discriminate|].
  destruct (negb (validate_email (CustomerInput.email x))); [discriminate|].
  destruct (email_taken (CustomerInput.email x) s); [discriminate|].
  destruct (bad_phone (CustomerInput.phone x)); [discriminate|reflexivity].
Qed.

Lemma bulk_loop_keeps_valid input :
  forall created errors w r w',
  bulk_loop validate_email db_accepts input created errors w = (r, w') ->
  (customers_valid validate_email (db w) ->
   customers_valid validate_email (db w'))
  /\ (customers_named (db w) -> customers_named (db w')).
Proof.
  induction input as [|x input IH]; intros created errors w r w'.
  - cbn. intros H. injection H as _ <-. tauto.
  - rewrite bulk_loop_cons.
    destruct (bulk_reject validate_email (db w) x) as [message|] eqn:Hrej;
      [apply IH|].
    destruct (db_accepts (db w) (CustomerRow (new_customer w x))).
    + intros Hrun. apply IH in Hrun. destruct Hrun as [Hvalid Hnamed].
      destruct (bulk_reject_passes _ _ _ Hrej) as (Hname & _ & Hformat).
      split; intros H.
      * apply Hvalid. cbn [db]. apply customers_valid_add; trivial.
        -- eapply bulk_reject_not_taken; eassumption.
        -- eapply bulk_reject_phone; eassumption.
      * apply Hnamed. unfold customers_named. cbn.
        apply Forall_app. split; [exact H|]. now repeat constructor.
    + intros H. injection H as _ <-. tauto.
Qed.

(** Only the backend makes the loop raise. *)
Lemma bulk_loop_raises input :
  forall created errors w e w',
  bulk_loop validate_email db_accepts input created errors w = (Raise e, w') ->
  e = DatabaseError.
Proof.
  induction input as [|x input IH]; intros created errors w e w'.
  - discriminate.
  - rewrite bulk_loop_cons.
    destruct (bulk_reject validate_email (db w) x); [apply IH|].
    destruct (db_accepts (db w) (CustomerRow (new_customer w x)));
      [apply IH|].
    intros H. now injection H.
Qed.

(** One message or one Customer per input. *)
Lemma bulk_loop_counts input :
  forall created errors w created' errors' w',
  bulk_loop validate_email db_accepts input created errors w
    = (Ok (created', errors'), w') ->
  (List.length created' + List.length errors'
   = List.length created + List.length errors + List.length input)%nat.
Proof.
  induction input as [|x input IH]; intros created errors w created' errors' w'.
  - cbn. intros H. injection H as <- <- _. lia.
  - rewrite bulk_loop_cons.
    destruct (bulk_reject validate_email (db w) x).
    + intros H. apply IH in H. rewrite length_app in H. cbn in *. lia.
    + destruct (db_accepts (db w) (CustomerRow (new_customer w x)));
        [|discriminate].
      intros H. apply IH in H. rewrite length_app in H. cbn in *. lia.
Qed.

(** A larger customer table refuses whatever a smaller one refuses. *)
Lemma bulk_reject_monotone s x cs :
  bulk_reject validate_email s x <> None ->
  bulk_reject validate_email
    (mkStore (customers s ++ cs) (products s) (orders s) (order_products s)) x
  <> None.
Proof.
  unfold bulk_reject. rewrite email_taken_app.
  destruct (negb (truthy (CustomerInput.name x))); [discriminate|].
  destruct (negb (truthy (CustomerInput.email x))); [discriminate|].
  destruct (negb (validate_email (CustomerInput.email x))); [discriminate|].
  destruct (email_taken (CustomerInput.email x) s); [discriminate|].
  cbn [orb].
  destruct (existsb _ cs); [discriminate|trivial].
Qed.

Lemma bulk_reject_created w x :
  bulk_reject validate_email (db w) x = None ->
  bulk_reject validate_email (add_customer (new_customer w x) (db w)) x
  <> None.
Proof.
  intros Hrej.
  destruct (bulk_reject_passes _ _ _ Hrej) as (Hname & Hemail & Hformat).
  rewrite (bulk_reject_conflict validate_email); try assumption;
    [discriminate|].
  apply email_taken_In. exists (new_customer w x).
  split; [|reflexivity]. cbn. apply in_or_app. right. now left.
Qed.

(** After the loop, the store refuses every input it has seen. *)
Lemma bulk_loop_saturates input :
  forall created errors w acc w',
  bulk_loop validate_email db_accepts input created errors w = (Ok acc, w') ->
  Forall (fun x => bulk_reject validate_email (db w') x <> None) input.
Proof.
  induction input as [|x input IH]; intros created errors w acc w'.
  - constructor.
  - rewrite bulk_loop_cons.
    destruct (bulk_reject validate_email (db w) x) as [message|] eqn:Hrej.
    + intros Hrun. constructor; [|eapply IH; eassumption].
      destruct acc as [created' errors'].
      apply bulk_loop_grows in Hrun. destruct Hrun as (cs & _ & ->).
      apply bulk_reject_monotone. congruence.
    + destruct (db_accepts (db w) (CustomerRow (new_customer w x)));
        [|discriminate].
      intros Hrun. constructor; [|eapply IH; eassumption].
      destruct acc as [created' errors'].
      apply bulk_loop_grows in Hrun. destruct Hrun as (cs & _ & ->).
      cbn [db].
      apply (bulk_reject_monotone
               (add_customer (new_customer w x) (db w)) x cs).
      now apply bulk_reject_created.
Qed.

(** A store that refuses every input is left alone by the loop. *)
Lemma bulk_loop_all_refused input :
  forall created errors w,
  Forall (fun x => bulk_reject validate_email (db w) x <> None) input ->
  exists messages,
    bulk_loop validate_email db_accepts input created errors w
      = (Ok (created, errors ++ messages), w)
    /\ List.length messages = List.length input.
Proof.
  induction input as [|x input IH]; intros created errors w Hall.
  - exists []. cbn. now rewrite app_nil_r.
  - inversion Hall as [|? ? Hx Hrest]; subst.
    rewrite bulk_loop_cons.
    destruct (bulk_reject validate_email (db w) x) as [message|];
      [|congruence].
    destruct (IH created (errors ++ [bulk_error x message]) w Hrest)
      as (messages & Hrun & Hlen).
    exists (bulk_error x message :: messages).
    rewrite Hrun, <- app_assoc. cbn. now rewrite Hlen.
Qed.

End BulkFurther.

(** X6.  BulkCreateCustomers keeps the customer table valid, whatever it
    returns or raises: emails stay pairwise distinct and of valid syntax,
    phones stay of the accepted format; and if every stored Customer had a
    name before the batch, every one has a name after it. *)
Theorem BulkCreateCustomers_keeps_data_model
  validate_email db_accepts input w r w' :
  BulkCreateCustomers validate_email db_accepts input w = (r, w') ->
  (customers_valid validate_email (db w) ->
   customers_valid validate_email (db w'))
  /\ (customers_named (db w) -> customers_named (db w')).
Proof.
  unfold BulkCreateCustomers, transaction_atomic.
  destruct (bulk_loop validate_email db_accepts input [] [] w)
    as [[acc|e] w1] eqn:Hloop; intros H; injection H as _ <-.
  - eapply bulk_loop_keeps_valid; eassumption.
  - cbn [db]. tauto.
Qed.

(** X7.  Over any backend, BulkCreateCustomers either returns, and then it
    has appended exactly the created Customers to the customer table,
    changed no other table, and produced one Customer or one message per
    input; or it raises, and then the exception is the backend's and the
    store is the one from before the batch.  No validation error ever
    leaves the handler. *)
Theorem BulkCreateCustomers_returns_or_restores
  validate_email db_accepts input w r w' :
  BulkCreateCustomers validate_email db_accepts input w = (r, w') ->
  match r with
  | Ok (created, errors) =>
      db w' = mkStore (customers (db w) ++ created) (products (db w))
                (orders (db w)) (order_products (db w))
      /\ (List.length created + List.length errors = List.length input)%nat
  | Raise e => e = DatabaseError /\ db w' = db w
  end.
Proof.
  unfold BulkCreateCustomers, transaction_atomic.
  destruct (bulk_loop validate_email db_accepts input [] [] w)
    as [[[created errors]|e] w1] eqn:Hloop; intros H; injection H as <- <-.
  - split.
    + apply bulk_loop_grows in Hloop. now destruct Hloop as (cs & -> & ->).
    + now apply bulk_loop_counts in Hloop.
  - split; [|reflexivity]. eapply bulk_loop_raises; eassumption.
Qed.

(** X8.  On one input that has a name, the batch handler and
    CreateCustomer agree, for a validator that refuses the empty text:
    one creates the Customer exactly when the other does, with the same
    row and the same resulting world, and one reports a validation
    failure exactly when the other raises one. *)
Theorem BulkCreateCustomers_single_agrees
  validate_email db_accepts x w :
  truthy (CustomerInput.name x) = true ->
  validate_email EmptyString = false ->
  (forall customer w',
      (exists message,
          CreateCustomer validate_email db_accepts x w
            = (Ok (customer, message), w')) <->
      BulkCreateCustomers validate_email db_accepts [x] w
        = (Ok ([customer], []), w'))
  /\ ((exists message,
          CreateCustomer validate_email db_accepts x w
            = (Raise (Exception message), w)) <->
      (exists reason,
          BulkCreateCustomers validate_email db_accepts [x] w
            = (Ok ([], [bulk_error x reason]), w))).
Proof.
  intros Hname Hempty.
  unfold BulkCreateCustomers, transaction_atomic.
  rewrite bulk_loop_cons, CreateCustomer_eq. unfold bulk_reject.
  rewrite Hname. cbn [negb].
  destruct (truthy (CustomerInput.email x)) eqn:Hemail; cbn [negb].
  2:{ unfold truthy in Hemail. apply negb_false_iff in Hemail.
      apply String.eqb_eq in Hemail. rewrite Hemail, Hempty. cbn.
      split.
      - intros customer w'. split; [intros (m & H)|intros H]; discriminate.
      - split; eauto. }
  destruct (validate_email (CustomerInput.email x)); cbn [negb].
  2:{ cbn. split.
      - intros customer w'. split; [intros (m & H)|intros H]; discriminate.
      - split; eauto. }
  destruct (email_taken (CustomerInput.email x) (db w)).
  { cbn. split.
    - intros customer w'. split; [intros (m & H)|intros H]; discriminate.
    - split; eauto. }
  destruct (bad_phone (CustomerInput.phone x)).
  { cbn. split.
    - intros customer w'. split; [intros (m & H)|intros H]; discriminate.
    - split; eauto. }
  destruct (db_accepts (db w) (CustomerRow (new_customer w x))); cbn.
  - split.
    + intros customer w'. split.
      * intros (m & H). injection H as <- _ <-. reflexivity.
      * intros H. injection H as <- <-. eauto.
    + split; [intros (m & H)|intros (m & H)]; discriminate.
  - split.
    + intros customer w'. split; [intros (m & H)|intros H]; discriminate.
    + split; [intros (m & H)|intros (m & H)]; discriminate.
Qed.

(** X9.  A batch is its two halves in sequence inside one transaction:
    when the first half alone returns, the whole batch returns what the
    second half returns after it, with the lists appended; and when the
    second half raises, the whole batch raises and the rows of the first
    half are gone too. *)
Theorem BulkCreateCustomers_app
  validate_email db_accepts first second w created errors w1 :
  BulkCreateCustomers validate_email db_accepts first w
    = (Ok (created, errors), w1) ->
  BulkCreateCustomers validate_email db_accepts (first ++ second) w =
  match BulkCreateCustomers validate_email db_accepts second w1 with
  | (Ok (created2, errors2), w2) =>
      (Ok (created ++ created2, errors ++ errors2), w2)
  | (Raise e, w2) => (Raise e, mkWorld (db w) (rng w2))
  end.
Proof.
  intros Hfirst. apply Bulk_returns in Hfirst.
  unfold BulkCreateCustomers, transaction_atomic.
  rewrite bulk_loop_app, Hfirst. cbn [fst snd].
  rewrite bulk_loop_acc.
  destruct (bulk_loop validate_email db_accepts second [] [] w1)
    as [[[created2 errors2]|e] w2]; reflexivity.
Qed.

(** X10.  Submitting again a batch that has returned creates nothing: the
    second call returns no Customer and one message per input, and leaves
    the world exactly as the first call left it. *)
Theorem BulkCreateCustomers_again
  validate_email db_accepts input w created errors w1 :
  BulkCreateCustomers validate_email db_accepts input w
    = (Ok (created, errors), w1) ->
  exists messages,
    BulkCreateCustomers validate_email db_accepts input w1
      = (Ok ([], messages), w1)
    /\ List.length messages = List.length input.
Proof.
  intros Hfirst. apply Bulk_returns in Hfirst.
  apply bulk_loop_saturates in Hfirst.
  destruct (bulk_loop_all_refused validate_email db_accepts input [] [] w1
              Hfirst) as (messages & Hrun & Hlen).
  exists messages. split; [|exact Hlen].
  apply Bulk_returns. exact Hrun.
Qed.

(** ** Lookups after a write *)

Lemma find_app_some {A} (f : A -> bool) l l' a :
  find f l = Some a -> find f (l ++ l') = Some a.
Proof.
  induction l as [|b l IH]; cbn; [discriminate|].
  destruct (f b); [trivial|exact IH].
Qed.

Lemma find_app_none {A} (f : A -> bool) l l' :
  find f l = None -> find f (l ++ l') = find f l'.
Proof.
  induction l as [|b l IH]; cbn; [trivial|].
  destruct (f b); [discriminate|exact IH].
Qed.

Lemma find_app_found {A} (f : A -> bool) l l' :
  find f l <> None -> find f (l ++ l') <> None.
Proof.
  destruct (find f l) as [a|] eqn:Hfind; [|congruence].
  intros _. now rewrite (find_app_some f l l' a Hfind).
Qed.

(** The loop of the pricing raises nothing but its own [ValidationError]. *)
Lemma total_loop_missing_or_ok product_ids :
  forall total w e w',
  total_loop product_ids total w = (Raise e, w') ->
  exists missing,
    e = ValidationError
          (fstr ["Product with ID "; missing; " does not exist."]%string).
Proof.
  induction product_ids as [|i rest IH]; intros total w e w'.
  - discriminate.
  - rewrite total_loop_cons.
    destruct (find_product i (db w)); [apply IH|].
    intros H. injection H as <- _. now exists i.
Qed.



(** X13.  A Customer that CreateCustomer returns is held by the store
    under its email; under a key the table did not hold it is found again
    with exactly the returned fields; and CreateOrder for that key no
    longer fails at the customer lookup. *)
Theorem CreateCustomer_then_get
  validate_email db_accepts input w customer message w1 :
  CreateCustomer validate_email db_accepts input w
    = (Ok (customer, message), w1) ->
  email_taken (CustomerInput.email input) (db w1) = true
  /\ (find_customer (Customer.id customer) (db w) = None ->
      find_customer (Customer.id customer) (db w1) = Some customer)
  /\ (forall backend product_ids e w2,
      CreateOrder backend
        (OrderInput.Build (Customer.id customer) product_ids) w1
        = (Raise e, w2) ->
      e <> Exception "Customer with the given ID does not exist.").
Proof.
  rewrite CreateCustomer_eq.
  destruct (negb (validate_email (CustomerInput.email input)));
    [discriminate|].
  destruct (email_taken (CustomerInput.email input) (db w)); [discriminate|].
  destruct (bad_phone (CustomerInput.phone input)); [discriminate|].
  destruct (db_accepts (db w) (CustomerRow (new_customer w input)));
    [|discriminate].
  intros H. injection H as <- _ <-.
  assert (Hfound : find_customer (Customer.id (new_customer w input))
                     (add_customer (new_customer w input) (db w)) <> None).
  { unfold find_customer. cbn [customers add_customer].
    destruct (find (fun c => String.eqb (Customer.id c)
                               (Customer.id (new_customer w input)))
                (customers (db w))) as [c|] eqn:Hold.
    - now rewrite (find_app_some _ _ _ c Hold).
    - rewrite find_app_none by exact Hold. cbn.
      now rewrite String.eqb_refl. }
  split; [|split].
  - apply email_taken_In. exists (new_customer w input).
    split; [|reflexivity]. cbn. apply in_or_app. right. now left.
  - intros Hfresh. unfold find_customer in *. cbn [db customers add_customer].
    rewrite find_app_none by exact Hfresh.
    cbn. now rewrite String.eqb_refl.
  - intros backend product_ids e w2. rewrite CreateOrder_eq.
    cbn [OrderInput.customer_id OrderInput.product_ids db]. cbn zeta.
    destruct (find_customer (Customer.id (new_customer w input))
                (add_customer (new_customer w input) (db w))) as [c|];
      [|congruence].
    destruct product_ids as [|i rest].
    { intros H. injection H as <- _. discriminate. }
    destruct (total_loop (i :: rest) _ _) as [[total|e'] w3] eqn:Hloop.
    + destruct (backend _ _).
      * match goal with
        | |- context [Order_products_set _ ?o ?objs ?w0] =>
            destruct (Order_products_set_eq backend o objs w0)
              as [(w4 & Hfail & _)|Hok]
        end.
        -- rewrite Hfail. intros H. injection H as <- _. discriminate.
        -- rewrite Hok. discriminate.
      * intros H. injection H as <- _. discriminate.
    + intros H. injection H as <- _.
      destruct (total_loop_missing_or_ok (i :: rest) PrimFloat.zero
                  (mkWorld (add_customer (new_customer w input) (db w))
                     (N.succ (N.succ (rng w)))) e' w3 Hloop)
        as (missing & ->).
      discriminate.
Qed.

(** ** Order pricing and CreateOrder, further *)


Lemma selected_in s product_ids p :
  In p (selected s product_ids) ->
  In p (products s) /\ In (Product.id p) product_ids.
Proof.
  unfold selected. intros H. apply filter_In in H.
  destruct H as [Hin Hmem]. now apply mem_In in Hmem.
Qed.

Lemma In_find_product p s :
  In p (products s) -> find_product (Product.id p) s <> None.
Proof.
  intros Hin Hnone. unfold find_product in Hnone.
  apply (find_none _ _ Hnone) in Hin. now rewrite String.eqb_refl in Hin.
Qed.

(** The rows [set] leaves: the rows of other orders as they were, and
    under the key of the order only pairs with the given products. *)
Lemma set_rows_spec order_id objs s r :
  In r (set_rows order_id objs s) ->
  (In r (order_products s) /\ fst r <> order_id)
  \/ (fst r = order_id /\ In (snd r) (map Product.id objs)).
Proof.
  unfold set_rows. intros H. apply in_app_or in H. destruct H as [H|H].
  - apply filter_In in H. destruct H as [Hin Hkeep].
    cbn beta in Hkeep. revert Hkeep.
    destruct (String.eqb (fst r) order_id) eqn:Ho; intros Hkeep.
    + right. split; [now apply String.eqb_eq|].
      apply negb_true_iff, andb_false_iff in Hkeep.
      destruct (mem (snd r) (map Product.id objs)) eqn:Hobj;
        [now apply mem_In|].
      assert (Hstale : mem (snd r)
                         (filter (fun i => negb (mem i (map Product.id objs)))
                            (related_ids order_id s)) = true).
      { apply mem_In. apply filter_In. split; [|now rewrite Hobj].
        unfold related_ids. apply in_map. apply filter_In.
        split; [exact Hin|exact Ho]. }
      exfalso. apply diff_true_false.
      destruct Hkeep as [Hkeep|Hkeep].
      * exact (eq_trans (eq_sym Ho) Hkeep).
      * exact (eq_trans (eq_sym Hstale) Hkeep).
    + left. split; [exact Hin|]. intros Heq. subst.
      now rewrite String.eqb_refl in Ho.
  - right. apply in_map_iff in H. destruct H as (i & <- & Hi).
    cbn. split; [reflexivity|].
    apply nodup_In in Hi. apply filter_In in Hi. tauto.
Qed.

Lemma set_rows_others order_id objs s r :
  fst r <> order_id ->
  In r (order_products s) -> In r (set_rows order_id objs s).
Proof.
  intros Hother Hin. unfold set_rows. apply in_or_app. left.
  apply filter_In. split; [exact Hin|].
  apply negb_true_iff, andb_false_iff. left.
  apply String.eqb_neq. exact Hother.
Qed.

Section CreateOrderFurther.

Variable db_accepts : Store -> Row -> bool.

(** What a call of CreateOrder can leave behind. *)
Lemma CreateOrder_effect input w r w' :
  CreateOrder db_accepts input w = (r, w') ->
  db w' = db w
  \/ exists c order,
       find_customer (OrderInput.customer_id input) (db w) = Some c
       /\ Order.id order = HexString.of_N (rng w)
       /\ Order.customer order = Customer.id c
       /\ ((exists e, r = Raise e /\ db w' = add_order order (db w))
           \/ (r = Ok order
               /\ db w' =
                  mkStore (customers (db w)) (products (db w))
                    (orders (db w) ++ [order])
                    (set_rows (Order.id order)
                       (selected (db w) (OrderInput.product_ids input))
                       (add_order order (db w))))).
Proof.
  rewrite CreateOrder_eq. cbn zeta.
  destruct (find_customer (OrderInput.customer_id input) (db w)) as [c|].
  2:{ intros H. injection H as _ <-. now left. }
  destruct (OrderInput.product_ids input) as [|i rest].
  { intros H. injection H as _ <-. now left. }
  destruct (total_loop (i :: rest) _ _) as [[total|e] w1].
  2:{ intros H. injection H as _ <-. now left. }
  destruct (db_accepts (db w) (OrderRow _)).
  2:{ intros H. injection H as _ <-. now left. }
  match goal with
  | |- context [Order_products_set _ ?o ?objs ?w0] =>
      destruct (Order_products_set_eq db_accepts o objs w0)
        as [(w2 & Hfail & Hdb)|Hok]
  end.
  - rewrite Hfail. intros H. injection H as <- <-. right.
    exists c, (Order.Build (HexString.of_N (rng w)) (Customer.id c) total).
    split; [reflexivity|].
    split; [reflexivity|]. split; [reflexivity|].
    left. eexists. split; [reflexivity|exact Hdb].
  - rewrite Hok. intros H. injection H as <- <-. right.
    exists c, (Order.Build (HexString.of_N (rng w)) (Customer.id c) total).
    split; [reflexivity|].
    split; [reflexivity|]. split; [reflexivity|].
    right. split; reflexivity.
Qed.

End CreateOrderFurther.

(** X15.  CreateOrder never changes the customers or the products, never
    removes or alters a stored Order (it appends at most one), and never
    adds, removes or alters an association row of another order. *)
Theorem CreateOrder_frame db_accepts input w r w' :
  CreateOrder db_accepts input w = (r, w') ->
  customers (db w') = customers (db w)
  /\ products (db w') = products (db w)
  /\ (orders (db w') = orders (db w)
      \/ exists order,
           Order.id order = HexString.of_N (rng w)
           /\ orders (db w') = orders (db w) ++ [order])
  /\ (forall row,
      fst row <> HexString.of_N (rng w) ->
      In row (order_products (db w')) <-> In row (order_products (db w))).
Proof.
  intros H. apply CreateOrder_effect in H.
  destruct H as [->|(c & order & _ & Hid & _ & [(e & _ & ->)|(_ & ->)])].
  - split; [reflexivity|]. split; [reflexivity|]. split; [now left|].
    intros row _. reflexivity.
  - cbn. split; [reflexivity|]. split; [reflexivity|].
    split; [right; eauto|]. intros row _. reflexivity.
  - cbn [db customers products orders order_products].
    split; [reflexivity|]. split; [reflexivity|].
    split; [right; eauto|]. intros row Hother. split.
    + intros Hin. apply set_rows_spec in Hin.
      destruct Hin as [[Hin _]|[Heq _]]; [exact Hin|].
      rewrite Hid in Heq. exfalso. apply Hother. exact Heq.
    + intros Hin. apply set_rows_others; [|exact Hin].
      rewrite Hid. exact Hother.
Qed.

(** X16.  CreateOrder keeps the references of the store resolving,
    whatever it returns or raises: every Order still points at a stored
    Customer, and every association row at a stored Order and a stored
    Product. *)
Theorem CreateOrder_keeps_references db_accepts input w r w' :
  references_resolve (db w) ->
  CreateOrder db_accepts input w = (r, w') ->
  references_resolve (db w').
Proof.
  intros [Horders Hrows] H. apply CreateOrder_effect in H.
  destruct H as [->|(c & order & Hc & Hid & Hcust & Hcase)];
    [now split|].
  assert (Hnew : find_customer (Order.customer order) (db w) <> None).
  { rewrite Hcust. apply find_some in Hc. destruct Hc as [Hin Heq].
    unfold find_customer. intros Hnone.
    apply (find_none _ _ Hnone) in Hin. now rewrite String.eqb_refl in Hin. }
  assert (Horders' : Forall (fun o => find_customer (Order.customer o) (db w)
                                      <> None) (orders (db w) ++ [order])).
  { apply Forall_app. split; [exact Horders|]. now repeat constructor. }
  destruct Hcase as [(e & _ & ->)|(_ & ->)]; split; cbn; try exact Horders'.
  - eapply Forall_impl; [|exact Hrows]. cbn.
    intros row [(o & Hin & Ho) Hp]. split; [|exact Hp].
    exists o. split; [apply in_or_app; now left|exact Ho].
  - apply Forall_forall. intros row Hin. apply set_rows_spec in Hin.
    destruct Hin as [[Hin _]|[Heq Hobj]].
    + cbn in Hin. rewrite Forall_forall in Hrows.
      destruct (Hrows row Hin) as [(o & Ho & Heq) Hp]. split; [|exact Hp].
      exists o. split; [apply in_or_app; now left|exact Heq].
    + split.
      * exists order. split; [apply in_or_app; right; now left|].
        now rewrite Heq.
      * apply in_map_iff in Hobj. destruct Hobj as (p & <- & Hp).
        apply selected_in in Hp. now apply In_find_product.
Qed.

(** X17.  CreateOrder is not one atomic write.  When the customer and
    every identifier of a non-empty [product_ids] resolve, the backend
    takes the Order row, no row is yet under the key of the order, and
    the backend refuses the association rows, the call raises; the Order
    row stays in the store, and no Product is associated to it. *)
Theorem CreateOrder_partial_write db_accepts input w c :
  find_customer (OrderInput.customer_id input) (db w) = Some c ->
  OrderInput.product_ids input <> [] ->
  Forall (resolves (db w)) (OrderInput.product_ids input) ->
  db_accepts (db w)
    (OrderRow (new_order w c (OrderInput.product_ids input))) = true ->
  related_ids (HexString.of_N (rng w)) (db w) = [] ->
  (forall s pk,
      db_accepts s (OrderProductRow (HexString.of_N (rng w)) pk) = false) ->
  exists w',
    CreateOrder db_accepts input w = (Raise DatabaseError, w')
    /\ db w' = add_order (new_order w c (OrderInput.product_ids input)) (db w)
    /\ related_ids (HexString.of_N (rng w)) (db w') = [].
Proof.
  intros Hcustomer Hsome Hall Horder Hfresh Hrefuse.
  rewrite CreateOrder_eq, Hcustomer. cbn zeta.
  destruct (OrderInput.product_ids input) as [|i rest] eqn:Hids;
    [congruence|].
  rewrite (total_loop_all (i :: rest) PrimFloat.zero
             (mkWorld (db w) (N.succ (rng w)))) by exact Hall.
  cbn [db]. fold (new_order w c (i :: rest)). rewrite Horder.
  unfold Order_products_set, transaction_atomic.
  cbn [Order.id new_order db rng].
  change (related_ids (HexString.of_N (rng w))
            (add_order (new_order w c (i :: rest)) (db w)))
    with (related_ids (HexString.of_N (rng w)) (db w)).
  rewrite Hfresh. cbn [filter mem existsb negb].
  assert (Hin : In i (map Product.id (selected (db w) (i :: rest)))).
  { apply selected_ids; [now left|]. now inversion Hall. }
  rewrite (filter_all (fun _ : ID => true)) by reflexivity.
  apply (nodup_In string_dec) in Hin.
  destruct (nodup string_dec (map Product.id (selected (db w) (i :: rest))))
    as [|pk pks]; [destruct Hin|].
  rewrite add_order_products_cons. cbn [db]. rewrite Hrefuse.
  eexists. split; [reflexivity|]. split; [reflexivity|].
  cbn [db]. exact Hfresh.
Qed.

(** ** The phone pattern filter *)

Lemma prefix_append value p :
  String.prefix value p = true <-> exists rest, p = (value ++ rest)%string.
Proof.
  revert p. induction value as [|c value IH]; intros p.
  - split; [intros _; now exists p|]. intros _. now destruct p.
  - destruct p as [|d p]; cbn.
    + split; [discriminate|]. intros (rest & H). discriminate.
    + destruct (ascii_dec c d) as [->|Hneq].
      * rewrite IH. split; intros (rest & H); exists rest.
        -- now rewrite H.
        -- now injection H.
      * split; [discriminate|]. intros (rest & H). injection H as H _.
        congruence.
Qed.

Lemma prefix_append_l value more p :
  String.prefix (value ++ more) p = true -> String.prefix value p = true.
Proof.
  rewrite !prefix_append. intros (rest & ->).
  exists (more ++ rest)%string.
  clear. induction value as [|c value IH]; cbn; [reflexivity|].
  now rewrite IH.
Qed.


(** X19.  A Customer that CreateCustomer returns with a phone is found by
    the phone pattern filter over the customer table under every
    beginning of that phone. *)
Theorem CreateCustomer_then_filter
  validate_email db_accepts input w customer message w' p value rest :
  CreateCustomer validate_email db_accepts input w
    = (Ok (customer, message), w') ->
  CustomerInput.phone input = Some p ->
  p = (value ++ rest)%string ->
  In customer (filter_by_phone_pattern (customers (db w')) value).
Proof.
  rewrite CreateCustomer_eq.
  destruct (negb (validate_email (CustomerInput.email input)));
    [discriminate|].
  destruct (email_taken (CustomerInput.email input) (db w)); [discriminate|].
  destruct (bad_phone (CustomerInput.phone input)); [discriminate|].
  destruct (db_accepts (db w) (CustomerRow (new_customer w input)));
    [|discriminate].
  intros H Hphone Hp. injection H as <- _ <-.
  unfold filter_by_phone_pattern. apply filter_In. split.
  - cbn. apply in_or_app. right. now left.
  - cbn. rewrite Hphone. apply prefix_append. now exists rest.
Qed.

(** ** References under the other mutations *)

Lemma references_resolve_grows s cs ps :
  references_resolve s ->
  references_resolve
    (mkStore (customers s ++ cs) (products s ++ ps) (orders s)
       (order_products s)).
Proof.
  intros [Horders Hrows]. split; cbn.
  - eapply Forall_impl; [|exact Horders]. cbn. intros o Ho.
    unfold find_customer in *. cbn. now apply find_app_found.
  - eapply Forall_impl; [|exact Hrows]. cbn. intros row [Ho Hp].
    split; [exact Ho|]. unfold find_product in *. cbn.
    now apply find_app_found.
Qed.

Lemma references_resolve_same s :
  references_resolve s ->
  references_resolve
    (mkStore (customers s) (products s) (orders s) (order_products s)).
Proof.
  now destruct s.
Qed.

(** X20.  CreateCustomer, BulkCreateCustomers and CreateProduct keep the
    references of the store resolving, whatever they return or raise:
    they only append Customers or Products, so every Order still points
    at a stored Customer and every association row at a stored Order and a
    stored Product. *)
Theorem customer_and_product_mutations_keep_references
  validate_email db_accepts w :
  references_resolve (db w) ->
  (forall input r w',
      CreateCustomer validate_email db_accepts input w = (r, w') ->
      references_resolve (db w'))
  /\ (forall input r w',
      BulkCreateCustomers validate_email db_accepts input w = (r, w') ->
      references_resolve (db w'))
  /\ (forall input r w',
      CreateProduct db_accepts input w = (r, w') ->
      references_resolve (db w')).
Proof.
  intros Href. split; [|split]; intros input r w'.
  - rewrite CreateCustomer_eq.
    destruct (negb (validate_email (CustomerInput.email input))).
    { intros H. now injection H as _ <-. }
    destruct (email_taken (CustomerInput.email input) (db w)).
    { intros H. now injection H as _ <-. }
    destruct (bad_phone (CustomerInput.phone input)).
    { intros H. now injection H as _ <-. }
    destruct (db_accepts (db w) (CustomerRow (new_customer w input)));
      intros H; injection H as _ <-; [|exact Href].
    cbn [db]. unfold add_customer.
    rewrite <- (app_nil_r (products (db w))).
    now apply references_resolve_grows.
  - unfold BulkCreateCustomers, transaction_atomic.
    destruct (bulk_loop validate_email db_accepts input [] [] w)
      as [[[created errors]|e] w1] eqn:Hloop;
      intros H; injection H as _ <-; [|exact Href].
    apply bulk_loop_grows in Hloop. destruct Hloop as (cs & _ & ->).
    rewrite <- (app_nil_r (products (db w))).
    now apply references_resolve_grows.
  - rewrite CreateProduct_eq.
    destruct (ProductInput.price input <=? 0)%Z.
    { intros H. now injection H as _ <-. }
    destruct (negative_stock (ProductInput.stock input)).
    { intros H. now injection H as _ <-. }
    destruct (db_accepts (db w) (ProductRow (new_product w input)));
      intros H; injection H as _ <-; [|exact Href].
    cbn [db]. unfold add_product.
    rewrite <- (app_nil_r (customers (db w))).
    now apply references_resolve_grows.
Qed.

(** ** The further properties at concrete inputs *)

Lemma shop_customers_valid : customers_valid django_validate_email (db shop).
Proof.
  split; cbn.
  - repeat constructor. intros [].
  - repeat constructor.
Qed.

Lemma shop_references_resolve : references_resolve (db shop).
Proof.
  split; constructor.
Qed.


Lemma CreateCustomer_all_or_nothing_witness :
  CreateCustomer django_validate_email accept_all bob shop
  = (Ok (new_customer shop bob, "Customer created successfully!"%string),
     shop_with_bob)
  /\ same_fields (new_customer shop bob) bob
  /\ db shop_with_bob = add_customer (new_customer shop bob) (db shop)
  /\ "Customer created successfully!"%string
     = "Customer created successfully!"%string.
Proof.
  split; [reflexivity|].
  exact (CreateCustomer_all_or_nothing django_validate_email accept_all bob
           shop
           (Ok (new_customer shop bob,
                "Customer created successfully!"%string))
           shop_with_bob eq_refl).
Defined.

Lemma CreateCustomer_keeps_customers_valid_witness :
  customers_valid django_validate_email (db shop)
  /\ customers_valid django_validate_email (db shop_with_bob).
Proof.
  split; [exact shop_customers_valid|].
  apply (CreateCustomer_keeps_customers_valid django_validate_email
           accept_all bob shop
           (Ok (new_customer shop bob,
                "Customer created successfully!"%string))
           shop_with_bob shop_customers_valid).
  reflexivity.
Defined.

Lemma CreateCustomer_then_duplicate_witness :
  CustomerInput.email bobby = CustomerInput.email bob
  /\ CreateCustomer django_validate_email accept_all bobby shop_with_bob
     = (Raise (Exception "Email already exists."), shop_with_bob).
Proof.
  split; [reflexivity|].
  apply (CreateCustomer_then_duplicate django_validate_email accept_all bob
           shop (new_customer shop bob)
           "Customer created successfully!"%string shop_with_bob bobby);
    reflexivity.
Defined.

Lemma BulkCreateCustomers_keeps_data_model_witness :
  exists w',
    BulkCreateCustomers django_validate_email accept_all
      [bob; nameless; carol] shop
    = (Ok ([new_customer shop bob;
            new_customer shop_with_bob carol],
           [bulk_error nameless "Name is required."]), w')
    /\ customers_valid django_validate_email (db w')
    /\ customers_named (db w').
Proof.
  eexists. split; [reflexivity|].
  match goal with
  | |- customers_valid _ (db ?w') /\ _ =>
      destruct (BulkCreateCustomers_keeps_data_model django_validate_email
                  accept_all [bob; nameless; carol] shop _ w' eq_refl)
        as [Hvalid Hnamed]
  end.
  split; [exact (Hvalid shop_customers_valid)|].
  apply Hnamed. repeat constructor.
Defined.

Lemma BulkCreateCustomers_returns_or_restores_witness :
  (exists w',
      BulkCreateCustomers django_validate_email accept_all
        [bob; alice_again; carol] shop
      = (Ok ([new_customer shop bob; new_customer shop_with_bob carol],
             [bulk_error alice_again
                "Email 'alice@example.com' already exists."]), w')
      /\ db w' =
         mkStore
           (customers (db shop)
            ++ [new_customer shop bob; new_customer shop_with_bob carol])
           (products (db shop)) (orders (db shop)) (order_products (db shop))
      /\ (2 + 1 = 3)%nat)
  /\ (exists w',
      BulkCreateCustomers django_validate_email varchar_backend
        [bob; erin] shop
      = (Raise DatabaseError, w')
      /\ DatabaseError = DatabaseError
      /\ db w' = db shop).
Proof.
  split.
  - eexists. split; [reflexivity|].
    exact (BulkCreateCustomers_returns_or_restores django_validate_email
             accept_all [bob; alice_again; carol] shop _ _ eq_refl).
  - eexists. split; [reflexivity|].
    exact (BulkCreateCustomers_returns_or_restores django_validate_email
             varchar_backend [bob; erin] shop _ _ eq_refl).
Defined.

Lemma BulkCreateCustomers_single_agrees_witness :
  truthy (CustomerInput.name bob) = true
  /\ django_validate_email EmptyString = false
  /\ BulkCreateCustomers django_validate_email accept_all [bob] shop
     = (Ok ([new_customer shop bob], []), shop_with_bob).
Proof.
  split; [reflexivity|]. split; [reflexivity|].
  apply (proj1 (BulkCreateCustomers_single_agrees django_validate_email
                  accept_all bob shop eq_refl eq_refl)
           (new_customer shop bob) shop_with_bob).
  exists "Customer created successfully!"%string. reflexivity.
Defined.

Lemma BulkCreateCustomers_app_witness :
  exists w2,
    BulkCreateCustomers django_validate_email accept_all
      ([bob] ++ [bobby; carol]) shop
    = (Ok ([new_customer shop bob] ++ [new_customer shop_with_bob carol],
           [] ++ [bulk_error bobby
                    "Email 'bob@example.com' already exists."]), w2).
Proof.
  eexists.
  exact (BulkCreateCustomers_app django_validate_email accept_all
           [bob] [bobby; carol] shop [new_customer shop bob] []
           shop_with_bob eq_refl).
Defined.

Lemma BulkCreateCustomers_again_witness :
  exists w1 messages,
    BulkCreateCustomers django_validate_email accept_all [bob; carol] shop
    = (Ok ([new_customer shop bob; new_customer shop_with_bob carol], []),
       w1)
    /\ BulkCreateCustomers django_validate_email accept_all [bob; carol] w1
       = (Ok ([], messages), w1)
    /\ List.length messages = List.length [bob; carol].
Proof.
  eexists.
  match goal with
  | |- exists messages, ?run = (?r, ?w1) /\ _ =>
      destruct (BulkCreateCustomers_again django_validate_email accept_all
                  [bob; carol] shop
                  [new_customer shop bob; new_customer shop_with_bob carol]
                  [] w1 eq_refl) as (messages & Hagain & Hlen)
  end.
  exists messages. split; [reflexivity|]. split; assumption.
Defined.



Lemma CreateCustomer_then_get_witness :
  find_customer "0x0" (db shop) = None
  /\ email_taken "bob@example.com" (db shop_with_bob) = true
  /\ find_customer "0x0" (db shop_with_bob) = Some (new_customer shop bob)
  /\ Exception "An order must contain at least one product."
     <> Exception "Customer with the given ID does not exist.".
Proof.
  destruct (CreateCustomer_then_get django_validate_email accept_all bob shop
              (new_customer shop bob)
              "Customer created successfully!"%string shop_with_bob eq_refl)
    as (Htaken & Hget & Horder).
  split; [reflexivity|]. split; [exact Htaken|].
  split; [apply Hget; reflexivity|].
  apply (Horder accept_all [] _ shop_with_bob). reflexivity.
Defined.


Lemma CreateOrder_frame_witness :
  exists order w',
    CreateOrder accept_all tea_and_jam shop = (Ok order, w')
    /\ customers (db w') = customers (db shop)
    /\ products (db w') = products (db shop)
    /\ (orders (db w') = orders (db shop)
        \/ exists order',
             Order.id order' = HexString.of_N (rng shop)
             /\ orders (db w') = orders (db shop) ++ [order'])
    /\ (forall row,
        fst row <> HexString.of_N (rng shop) ->
        In row (order_products (db w')) <-> In row (order_products (db shop))).
Proof.
  eexists. eexists. split; [vm_compute; reflexivity|].
  apply (CreateOrder_frame accept_all tea_and_jam shop
           (Ok (new_order shop alice ["p-tea"; "p-jam"]%string))).
  vm_compute. reflexivity.
Defined.

Lemma CreateOrder_keeps_references_witness :
  references_resolve (db shop)
  /\ exists order w',
      CreateOrder accept_all tea_and_jam shop = (Ok order, w')
      /\ references_resolve (db w').
Proof.
  split; [exact shop_references_resolve|].
  eexists. eexists. split; [vm_compute; reflexivity|].
  apply (CreateOrder_keeps_references accept_all tea_and_jam shop
           (Ok (new_order shop alice ["p-tea"; "p-jam"]%string)) _
           shop_references_resolve).
  vm_compute. reflexivity.
Defined.

Lemma CreateOrder_partial_write_witness :
  exists w',
    CreateOrder no_rows_backend tea_and_jam shop = (Raise DatabaseError, w')
    /\ db w' =
       add_order (new_order shop alice (OrderInput.product_ids tea_and_jam))
         (db shop)
    /\ related_ids (HexString.of_N (rng shop)) (db w') = [].
Proof.
  apply (CreateOrder_partial_write no_rows_backend tea_and_jam shop alice).
  - reflexivity.
  - discriminate.
  - repeat constructor; discriminate.
  - reflexivity.
  - reflexivity.
  - reflexivity.
Defined.

Lemma CreateCustomer_then_filter_witness :
  In (new_customer shop bob)
    (filter_by_phone_pattern (customers (db shop_with_bob)) "+254").
Proof.
  apply (CreateCustomer_then_filter django_validate_email accept_all bob shop
           (new_customer shop bob) "Customer created successfully!"%string
           shop_with_bob "+254700000001"%string "+254"%string
           "700000001"%string);
    reflexivity.
Defined.

Lemma customer_and_product_mutations_keep_references_witness :
  references_resolve (db shop)
  /\ references_resolve (db shop_with_bob)
  /\ exists p w',
      CreateProduct accept_all penny shop = (Ok p, w')
      /\ references_resolve (db w').
Proof.
  destruct (customer_and_product_mutations_keep_references
              django_validate_email accept_all shop shop_references_resolve)
    as (Hcustomer & _ & Hproduct).
  split; [exact shop_references_resolve|]. split.
  - apply (Hcustomer bob
             (Ok (new_customer shop bob,
                  "Customer created successfully!"%string))).
    reflexivity.
  - eexists. eexists. split; [vm_compute; reflexivity|].
    apply (Hproduct penny (Ok (new_product shop penny))).
    vm_compute. reflexivity.
Defined.
